(** * Causal-effect engine: coarsened matching, ATT aggregation, significance
      and the placebo validator

    A shallow embedding of [backend/causal_engine.py], [validation.py],
    the constants of [backend/config.py] and the difficulty post-processing
    of [compute_features.py], followed by the properties proved about them;
    and of what surrounds the engine: the loader of
    [backend/data_loader.py], the problem metadata of
    [compute_problem_meta.py] and the ranking of [recommender_service.py].

    Conventions of the embedding.
    - A polars frame is a [list] of records, one record per row, in frame
      order.  A nullable column is an [option].
    - A finite Float64 is an exact rational [Q]: the arithmetic of the
      pipeline is idealised to exact arithmetic, rounding error is not
      modelled.  In particular the mean of equal values is that value,
      which the Float64 mean of the code does not guarantee; where that
      matters the Float64 statistics are given as data.  Where the code
      can meet IEEE special values (the difficulty confounder, the
      standard error and what is derived from it) the column has type
      [f64], which adds [+inf], [-inf] and [NaN].  Signed zeros are not
      distinguished.
    - [cast(pl.Int32)] of a rounded value is the integer itself; the range
      check of the cast (a run-time error in polars) is outside the model.
    - The numerical primitives of the libraries, which are not rational
      functions (sample standard deviation, square root, the normal CDF),
      are the fields of the class [Numerics]. *)

From Stdlib Require Import List ZArith QArith Qabs Qround Lqa Lia Bool String Ascii.
From Stdlib Require Import Sorting.Sorted Sorting.Permutation.
Import ListNotations.

Local Open Scope Q_scope.

(* ================================================================== *)
(** * Float64 values with the IEEE special values *)
(* ================================================================== *)

Module F64.

Inductive f64 : Type :=
| Fin (q : Q)
| PInf
| NInf
| NaN.

Definition is_infinite (x : f64) : bool :=
  match x with PInf | NInf => true | _ => false end.

Definition is_nan (x : f64) : bool :=
  match x with NaN => true | _ => false end.

(** [Expr.fill_nan v] *)
Definition fill_nan (v : f64) (x : f64) : f64 :=
  match x with NaN => v | _ => x end.

Definition Qsign_pos (q : Q) : bool := negb (Qle_bool q 0).
Definition Qsign_neg (q : Q) : bool := negb (Qle_bool 0 q).

Definition fopp (x : f64) : f64 :=
  match x with
  | Fin q => Fin (- q)
  | PInf => NInf
  | NInf => PInf
  | NaN => NaN
  end.

Definition fabs (x : f64) : f64 :=
  match x with
  | Fin q => Fin (Qabs q)
  | PInf | NInf => PInf
  | NaN => NaN
  end.

Definition fadd (x y : f64) : f64 :=
  match x, y with
  | NaN, _ | _, NaN => NaN
  | PInf, NInf | NInf, PInf => NaN
  | PInf, _ | _, PInf => PInf
  | NInf, _ | _, NInf => NInf
  | Fin a, Fin b => Fin (a + b)
  end.

Definition fsub (x y : f64) : f64 := fadd x (fopp y).

(** The infinity with the sign of [q]; [NaN] at zero (inf * 0). *)
Definition inf_times (pos : bool) (q : Q) : f64 :=
  if Qsign_pos q then (if pos then PInf else NInf)
  else if Qsign_neg q then (if pos then NInf else PInf)
  else NaN.

Definition fmul (x y : f64) : f64 :=
  match x, y with
  | NaN, _ | _, NaN => NaN
  | Fin a, Fin b => Fin (a * b)
  | PInf, Fin b | Fin b, PInf => inf_times true b
  | NInf, Fin b | Fin b, NInf => inf_times false b
  | PInf, PInf | NInf, NInf => PInf
  | PInf, NInf | NInf, PInf => NInf
  end.

(** IEEE division: a nonzero finite value over zero is an infinity,
    zero over zero is [NaN]. *)
Definition fdiv (x y : f64) : f64 :=
  match x, y with
  | NaN, _ | _, NaN => NaN
  | Fin a, Fin b =>
      if Qeq_bool b 0 then
        (if Qsign_pos a then PInf else if Qsign_neg a then NInf else NaN)
      else Fin (a / b)
  | Fin _, (PInf | NInf) => Fin 0
  | (PInf | NInf), (PInf | NInf) => NaN
  | PInf, Fin b => if Qsign_neg b then NInf else PInf
  | NInf, Fin b => if Qsign_neg b then PInf else NInf
  end.

(** [x < y] as polars evaluates it in a filter: a comparison with [NaN]
    on the left is false ([NaN] is ordered above every number). *)
Definition fltb (x y : f64) : bool :=
  match x, y with
  | NaN, _ => false
  | _, NaN => true
  | NInf, NInf => false
  | NInf, _ => true
  | _, NInf => false
  | PInf, _ => false
  | Fin _, PInf => true
  | Fin a, Fin b => negb (Qle_bool b a)
  end.


End F64.
Export F64.

(* ================================================================== *)
(** * The numerical primitives of polars, numpy and scipy *)
(* ================================================================== *)

(** [std_sample] is [Expr.std] (sample standard deviation, ddof = 1) of a
    column of finite values, [sqrt_pos] is the square root of a positive
    finite value and [norm_cdf_fin] is [scipy.stats.norm.cdf] at a finite
    argument.  The values at zero, at the infinities and at [NaN] are
    fixed by IEEE and written out in [fsqrt] and [norm_cdf].  [Expr.std]
    is null on a group of one row; the engine reads the standard deviation
    of joined rows only, whose groups hold at least ten rows. *)
Class Numerics : Type := {
  std_sample : list Q -> Q;
  sqrt_pos : Q -> Q;
  norm_cdf_fin : Q -> Q
}.

(** A law of the sample standard deviation: it is zero only on a column
    whose values are all equal. *)
Definition std_zero_only_on_constant (N : Numerics) : Prop :=
  forall l : list Q,
    std_sample l == 0 -> forall x y, In x l -> In y l -> x == y.

Definition fsqrt {N : Numerics} (x : f64) : f64 :=
  match x with
  | Fin q =>
      if Qeq_bool q 0 then Fin 0
      else if Qle_bool 0 q then Fin (sqrt_pos q)
      else NaN
  | PInf => PInf
  | NInf => NaN
  | NaN => NaN
  end.

Definition norm_cdf {N : Numerics} (x : f64) : f64 :=
  match x with
  | Fin q => Fin (norm_cdf_fin q)
  | PInf => Fin 1
  | NInf => Fin 0
  | NaN => NaN
  end.

(* ================================================================== *)
(** * Dataframe operators *)
(* ================================================================== *)

Module Polars.

Section Generic.
Context {A K : Type}.
Variable eqb : K -> K -> bool.

(** The distinct keys of a column, in order of first appearance. *)
Fixpoint distinct (l : list K) : list K :=
  match l with
  | [] => []
  | k :: rest => k :: filter (fun k' => negb (eqb k' k)) (distinct rest)
  end.

(** [group_by(key)]: one group per distinct key, holding the rows of
    that key in frame order. *)
Definition group_by (key : A -> K) (rows : list A) : list (K * list A) :=
  map (fun k => (k, filter (fun r => eqb (key r) k) rows))
      (distinct (map key rows)).

(** [expr.over(key)] for an aggregate [expr]: each row gets the
    aggregate of the rows that share its key. *)
Definition over {B} (key : A -> K) (agg : list A -> B) (rows : list A)
  : list (A * B) :=
  map (fun r => (r, agg (filter (fun r' => eqb (key r') (key r)) rows))) rows.

(** Stable insertion sort, [le] the order of the sort key.  The sort of
    polars need not keep the order of rows with equal keys; no statement
    below depends on the order of such rows. *)
Variable le : A -> A -> bool.

Fixpoint insert_sorted (x : A) (l : list A) : list A :=
  match l with
  | [] => [x]
  | y :: rest => if le x y then x :: l else y :: insert_sorted x rest
  end.

Definition sort (l : list A) : list A :=
  fold_right insert_sorted [] l.
End Generic.

Definition Qsum (l : list Q) : Q := fold_right Qplus 0 l.
Definition Zsum (l : list Z) : Z := fold_right Z.add 0%Z l.

Definition count {A} (l : list A) : Z := Z.of_nat (List.length l).

(** [Expr.mean] of a non-empty column, in exact arithmetic. *)
Definition mean (l : list Q) : Q := Qsum l / inject_Z (count l).

(** [Expr.round(0)] on a finite value: to the nearest integer, a tie
    away from zero.  (Newer polars versions round a tie to even; no
    statement below depends on how a tie is broken.) *)
Definition round0 (q : Q) : Z :=
  if Qle_bool 0 q then Qfloor (q + (1 # 2)) else Qceiling (q - (1 # 2)).

(** The values of a nullable column that are not null. *)
Fixpoint drop_nulls {A} (l : list (option A)) : list A :=
  match l with
  | [] => []
  | Some x :: rest => x :: drop_nulls rest
  | None :: rest => drop_nulls rest
  end.

End Polars.

(* ================================================================== *)
(** * [backend/config.py] *)
(* ================================================================== *)

Module Config.
Definition MIN_SUBMISSIONS_PER_USER : Z := 10.
Definition MIN_RATING : Q := 800.
Definition MAX_RATING : Q := 4000.
Definition FUTURE_SUBMISSION_WINDOW : nat := 20.
Definition PAST_SUBMISSION_WINDOW : nat := 20.
Definition RATING_BIN_SIZE : Q := 100.
Definition ACCURACY_BIN_SIZE : Q := 1 # 10.
Definition DIFFICULTY_BIN_SIZE : Q := 200.
Definition MIN_BASELINE_SAMPLES : Z := 20.
Definition MIN_TREATED_SAMPLES : Z := 20.
Definition MAX_ALLOWED_UPLIFT : Q := 300.
Definition P_VALUE_THRESHOLD : Q := 1 # 100.
End Config.

(* ================================================================== *)
(** * The input panel and the stratum key *)
(* ================================================================== *)

(** One row of [user_features.parquet], with the columns the engine
    reads.  The rolling accuracy and the rolling average difficulty are
    nullable Float64 columns; the difficulty can also hold [NaN] (no
    accepted submission in the window: 0/0) or an infinity. *)
Record Event : Type := {
  handle : string;
  time : Z;
  id_of_submission_task : string;
  verdict : string;
  rating_at_submission : Q;
  roll_acc_20 : option Q;
  roll_ok_diff_20 : option f64
}.

(** The three bucket columns.  A bucket computed from a null is null. *)
Record Stratum : Type := {
  bin_rating : Z;
  bin_acc : option Z;
  bin_diff : option Z
}.

Definition opt_Z_eqb (a b : option Z) : bool :=
  match a, b with
  | Some x, Some y => Z.eqb x y
  | None, None => true
  | _, _ => false
  end.

(** Key equality of [group_by]: the nulls of a key column form one group. *)
Definition stratum_eqb (s1 s2 : Stratum) : bool :=
  Z.eqb (bin_rating s1) (bin_rating s2)
  && opt_Z_eqb (bin_acc s1) (bin_acc s2)
  && opt_Z_eqb (bin_diff s1) (bin_diff s2).

Definition opt_Z_join_eqb (a b : option Z) : bool :=
  match a, b with
  | Some x, Some y => Z.eqb x y
  | _, _ => false
  end.

(** Key equality of [join]: a null key matches nothing. *)
Definition stratum_join_eqb (s1 s2 : Stratum) : bool :=
  Z.eqb (bin_rating s1) (bin_rating s2)
  && opt_Z_join_eqb (bin_acc s1) (bin_acc s2)
  && opt_Z_join_eqb (bin_diff s1) (bin_diff s2).

Definition same_handle (e e' : Event) : bool :=
  String.eqb (handle e) (handle e').

(** [lf.sort([COL_HANDLE, COL_TIMESTAMP])] *)
Definition handle_time_le (e e' : Event) : bool :=
  match String.compare (handle e) (handle e') with
  | Lt => true
  | Eq => Z.leb (time e) (time e')
  | Gt => false
  end.

Definition sort_by_handle_time (rows : list Event) : list Event :=
  Polars.sort handle_time_le rows.

(** [pl.col(COL_USER_RATING).shift(-n).over(COL_HANDLE)]: the rating of the
    same user [n] rows later, null when the user has no such row. *)
Fixpoint shift_neg_over_handle (n : nat) (rows : list Event)
  : list (Event * option Q) :=
  match rows with
  | [] => []
  | e :: rest =>
      (e, option_map rating_at_submission
            (nth_error (filter (same_handle e) (e :: rest)) n))
      :: shift_neg_over_handle n rest
  end.

(** [pl.col(COL_USER_RATING).shift(n).over(COL_HANDLE)]: the rating of the
    same user [n] rows earlier; [seen] holds the rows already passed, the
    latest first. *)
Fixpoint shift_pos_over_handle_from (seen : list Event) (n : nat)
  (rows : list Event) : list (Event * option Q) :=
  match rows with
  | [] => []
  | e :: rest =>
      (e, option_map rating_at_submission
            (nth_error (filter (same_handle e) (e :: seen)) n))
      :: shift_pos_over_handle_from (e :: seen) n rest
  end.

Definition shift_pos_over_handle (n : nat) (rows : list Event) :=
  shift_pos_over_handle_from [] n rows.

(** The event [e] with its difficulty column replaced by [d]. *)
Definition with_difficulty (e : Event) (d : option f64) : Event :=
  {| handle := handle e;
     time := time e;
     id_of_submission_task := id_of_submission_task e;
     verdict := verdict e;
     rating_at_submission := rating_at_submission e;
     roll_acc_20 := roll_acc_20 e;
     roll_ok_diff_20 := d |}.

(** The event [e] with its verdict column replaced by [v e]. *)
Definition with_verdict (v : Event -> string) (e : Event) : Event :=
  {| handle := handle e;
     time := time e;
     id_of_submission_task := id_of_submission_task e;
     verdict := v e;
     rating_at_submission := rating_at_submission e;
     roll_acc_20 := roll_acc_20 e;
     roll_ok_diff_20 := roll_ok_diff_20 e |}.

(* ================================================================== *)
(** * [compute_features.py]: the rolling average difficulty *)
(* ================================================================== *)

Module Features.

(** [(pl.col("temp_roll_whook_sum") / pl.col("roll_solve_cnt_20"))
      .fill_null(0.0)]: a float sum over an integer count; null when
    either window is not full yet, and then filled with 0.0. *)
Definition roll_ok_diff (temp_roll_whook_sum : option Q)
  (roll_solve_cnt : option Z) : option f64 :=
  let quotient :=
    match temp_roll_whook_sum, roll_solve_cnt with
    | Some s, Some c => Some (fdiv (Fin s) (Fin (inject_Z c)))
    | _, _ => None
    end in
  match quotient with
  | Some v => Some v
  | None => Some (Fin 0)
  end.

End Features.

(* ================================================================== *)
(** * [backend/causal_engine.py] *)
(* ================================================================== *)

Module CausalEngine.

(** ** Step 1: the forward outcome *)

Record Outcome : Type := {
  ev : Event;
  rating_gain_20 : Q;
  improved_20 : Z
}.

(** [rating_gain_20 = future_rating_20 - rating], [improved_20 =
    (rating_gain_20 > 0)], rows with a null gain filtered out. *)
Definition outcome_of (row : Event * option Q) : option Outcome :=
  match snd row with
  | Some future_rating_20 =>
      let gain := future_rating_20 - rating_at_submission (fst row) in
      Some {| ev := fst row;
              rating_gain_20 := gain;
              improved_20 := if Qle_bool gain 0 then 0%Z else 1%Z |}
  | None => None
  end.

Definition outcomes (panel : list Event) : list Outcome :=
  Polars.drop_nulls
    (map outcome_of (shift_neg_over_handle 20 (sort_by_handle_time panel))).

(** ** Step 2: the state buckets *)

Definition bin_rating_of (e : Event) : Z :=
  Polars.round0 (rating_at_submission e / 100).

Definition bin_acc_of (e : Event) : option Z :=
  option_map (fun acc => Polars.round0 (acc * 10)) (roll_acc_20 e).

(** [pl.when(d.is_infinite()).then(0.0).otherwise(d.fill_nan(0.0)) / 200],
    rounded.  On a null, [is_infinite] is null, the [otherwise] branch is
    taken, [fill_nan] leaves the null and the bucket is null. *)
Definition bin_diff_of (e : Event) : option Z :=
  match roll_ok_diff_20 e with
  | None => None
  | Some d =>
      let coerced := if is_infinite d then Fin 0 else fill_nan (Fin 0) d in
      match fdiv coerced (Fin 200) with
      | Fin q => Some (Polars.round0 q)
      | _ => None
      end
  end.

Definition stratum_of (e : Event) : Stratum :=
  {| bin_rating := bin_rating_of e;
     bin_acc := bin_acc_of e;
     bin_diff := bin_diff_of e |}.

(** ** Steps 3 and 4: baseline and treatment statistics *)

Record BaselineStats : Type := {
  baseline_bins : Stratum;
  baseline_gain : Q;
  baseline_std : Q;
  baseline_count : Z;
  baseline_improve_prob : Q
}.

Record TreatmentStats : Type := {
  treated_problem : string;
  treated_bins : Stratum;
  treated_gain : Q;
  treated_std : Q;
  treated_count : Z;
  treated_improve_prob : Q
}.

Definition gains (g : list Outcome) : list Q := map rating_gain_20 g.
Definition improveds (g : list Outcome) : list Q :=
  map (fun o => inject_Z (improved_20 o)) g.

Section WithNumerics.
Context {N : Numerics}.

Definition baseline_agg (kg : Stratum * list Outcome) : BaselineStats :=
  {| baseline_bins := fst kg;
     baseline_gain := Polars.mean (gains (snd kg));
     baseline_std := std_sample (gains (snd kg));
     baseline_count := Polars.count (gains (snd kg));
     baseline_improve_prob := Polars.mean (improveds (snd kg)) |}.

Definition baseline_stats (min_samples : Z) (lf : list Outcome)
  : list BaselineStats :=
  filter (fun b => (min_samples <=? baseline_count b)%Z)
    (map baseline_agg
       (Polars.group_by stratum_eqb (fun o => stratum_of (ev o)) lf)).

Definition task_stratum_eqb (k1 k2 : string * Stratum) : bool :=
  String.eqb (fst k1) (fst k2) && stratum_eqb (snd k1) (snd k2).

Definition task_stratum_of (o : Outcome) : string * Stratum :=
  (id_of_submission_task (ev o), stratum_of (ev o)).

Definition treatment_agg (kg : (string * Stratum) * list Outcome)
  : TreatmentStats :=
  {| treated_problem := fst (fst kg);
     treated_bins := snd (fst kg);
     treated_gain := Polars.mean (gains (snd kg));
     treated_std := std_sample (gains (snd kg));
     treated_count := Polars.count (gains (snd kg));
     treated_improve_prob := Polars.mean (improveds (snd kg)) |}.

(** The groups are keyed by (task, stratum) only: every row of the
    task in the stratum enters, whatever its verdict. *)
Definition treatment_stats (lf : list Outcome) : list TreatmentStats :=
  filter (fun t => (10 <=? treated_count t)%Z)
    (map treatment_agg
       (Polars.group_by task_stratum_eqb task_stratum_of lf)).

(** ** Step 5: the effect per (task, stratum) *)

(** A row of the inner join of [treatment_stats] with [baseline_stats]
    on the three bucket columns. *)
Record Joined : Type := {
  j_treated : TreatmentStats;
  j_baseline : BaselineStats
}.

Definition join_on_bins (ts : list TreatmentStats)
  (bs : list BaselineStats) : list Joined :=
  flat_map
    (fun t =>
       map (fun b => {| j_treated := t; j_baseline := b |})
         (filter
            (fun b => stratum_join_eqb (treated_bins t) (baseline_bins b))
            bs))
    ts.

Definition uplift_of (j : Joined) : Q :=
  treated_gain (j_treated j) - baseline_gain (j_baseline j).

(** s1^2/n1 + s2^2/n2 *)
Definition bucket_variance_of (j : Joined) : Q :=
  treated_std (j_treated j) ^ 2 / inject_Z (treated_count (j_treated j))
  + baseline_std (j_baseline j) ^ 2
    / inject_Z (baseline_count (j_baseline j)).

Definition probability_uplift_of (j : Joined) : Q :=
  treated_improve_prob (j_treated j)
  - baseline_improve_prob (j_baseline j).

(** The join, the count filter and the [uplift.abs() <= 300] filter. *)
Definition effect_rows (min_samples : Z) (ts : list TreatmentStats)
  (bs : list BaselineStats) : list Joined :=
  filter (fun j => Qle_bool (Qabs (uplift_of j)) 300)
    (filter
       (fun j =>
          (min_samples <=? treated_count (j_treated j))%Z
          && (min_samples <=? baseline_count (j_baseline j))%Z)
       (join_on_bins ts bs)).

(** ** Step 6: the weights and the aggregate per task *)

(** A row of [effect_df] as it is returned, with every column. *)
Record EffectRecord : Type := {
  source : Joined;
  uplift : Q;
  bucket_variance : Q;
  probability_uplift : Q;
  total_treated_samples : Z;
  weight : Q
}.

Definition problem (r : EffectRecord) : string :=
  treated_problem (j_treated (source r)).
Definition bins (r : EffectRecord) : Stratum :=
  treated_bins (j_treated (source r)).
Definition effect_treated_count (r : EffectRecord) : Z :=
  treated_count (j_treated (source r)).

Definition j_problem (j : Joined) : string :=
  treated_problem (j_treated j).
Definition j_count (j : Joined) : Z := treated_count (j_treated j).

(** [treated_count.sum().over(COL_PROBLEM_ID)], then
    [weight = treated_count / total_treated_samples]. *)
Definition with_weights (rows : list Joined) : list EffectRecord :=
  map
    (fun jt : Joined * Z =>
       let (j, total) := jt in
       {| source := j;
          uplift := uplift_of j;
          bucket_variance := bucket_variance_of j;
          probability_uplift := probability_uplift_of j;
          total_treated_samples := total;
          weight := inject_Z (j_count j) / inject_Z total |})
    (Polars.over String.eqb j_problem
       (fun g => Polars.Zsum (map j_count g)) rows).

Definition effect_df_of_stats (min_samples : Z)
  (ts : list TreatmentStats) (bs : list BaselineStats)
  : list EffectRecord :=
  with_weights (effect_rows min_samples ts bs).

Record ProblemEffect : Type := {
  pe_problem : string;
  att_score : Q;
  att_variance : Q;
  pe_total_treated_samples : Z;
  avg_rating_level : Q;
  att_probability_uplift : Q
}.

Definition att_agg (kg : string * list EffectRecord) : ProblemEffect :=
  let g := snd kg in
  {| pe_problem := fst kg;
     att_score := Polars.Qsum (map (fun r => weight r * uplift r) g);
     att_variance :=
       Polars.Qsum (map (fun r => weight r ^ 2 * bucket_variance r) g);
     pe_total_treated_samples := hd 0%Z (map total_treated_samples g);
     avg_rating_level :=
       Polars.mean (map (fun r => inject_Z (bin_rating (bins r))) g);
     att_probability_uplift :=
       Polars.Qsum
         (map (fun r => probability_uplift r
                        * inject_Z (effect_treated_count r)) g)
       / inject_Z (Polars.Zsum (map effect_treated_count g)) |}.

Definition final_effects_of (effect_df : list EffectRecord)
  : list ProblemEffect :=
  map att_agg (Polars.group_by String.eqb problem effect_df).

(** [compute_causal_effects(features_path, min_samples)]: the pair
    [(effect_df, final_effects)]. *)
Definition compute_causal_effects (min_samples : Z) (panel : list Event)
  : list EffectRecord * list ProblemEffect :=
  let lf := outcomes panel in
  let effect_df :=
    effect_df_of_stats min_samples
      (treatment_stats lf) (baseline_stats min_samples lf) in
  (effect_df, final_effects_of effect_df).

(** ** [run_pipeline]: standard error, z-score, p-value, filter, sort *)

Record Significance : Type := {
  effect : ProblemEffect;
  att_std_err : f64;
  z_score : f64;
  p_value : f64
}.

Definition test_of (pe : ProblemEffect) : Significance :=
  let std_err := fsqrt (Fin (att_variance pe)) in
  let z := fdiv (Fin (att_score pe)) std_err in
  {| effect := pe;
     att_std_err := std_err;
     z_score := z;
     p_value := fmul (Fin 2) (fsub (Fin 1) (norm_cdf (fabs z))) |}.

Definition is_significant (s : Significance) : bool :=
  fltb (p_value s) (Fin Config.P_VALUE_THRESHOLD).

Definition att_desc (s1 s2 : Significance) : bool :=
  Qle_bool (att_score (effect s2)) (att_score (effect s1)).

Definition significant_effects (final_effects : list ProblemEffect)
  : list Significance :=
  Polars.sort att_desc (filter is_significant (map test_of final_effects)).

(** The two tables [run_pipeline] persists from the engine's result:
    the significant tasks and their rows of [effect_df].  The default
    [min_samples] of [compute_causal_effects] is 50. *)
Definition run_pipeline (panel : list Event)
  : list Significance * list EffectRecord :=
  let (effect_df, final_effects) := compute_causal_effects 50 panel in
  let significant := significant_effects final_effects in
  let sig_problem_ids := map (fun s => pe_problem (effect s)) significant in
  (significant,
   filter
     (fun r => existsb (String.eqb (problem r)) sig_problem_ids)
     effect_df).

(** ** Names for the statements below *)

(** The outcome row [o] with the verdict of its event replaced. *)
Definition outcome_with_verdict (v : Event -> string) (o : Outcome)
  : Outcome :=
  {| ev := with_verdict v (ev o);
     rating_gain_20 := rating_gain_20 o;
     improved_20 := improved_20 o |}.

(** The total of the treated counts of a task over a frame. *)
Definition task_total (rows : list Joined) (p : string) : Z :=
  Polars.Zsum
    (map j_count (filter (fun j => String.eqb (j_problem j) p) rows)).

Definition record_of (rows : list Joined) (j : Joined) : EffectRecord :=
  {| source := j;
     uplift := uplift_of j;
     bucket_variance := bucket_variance_of j;
     probability_uplift := probability_uplift_of j;
     total_treated_samples := task_total rows (j_problem j);
     weight := inject_Z (j_count j)
               / inject_Z (task_total rows (j_problem j)) |}.
End WithNumerics.

End CausalEngine.

(* ================================================================== *)
(** * [validation.py]: the placebo test *)
(* ================================================================== *)

Module Validation.

(** ** Step 1: the backward outcome *)

Record Placebo : Type := {
  ev : Event;
  placebo_gain_20 : Q;
  placebo_improved_20 : Z
}.

(** [placebo_gain_20 = rating - past_rating_20], rows with a null gain
    filtered out, [placebo_improved_20 = (placebo_gain_20 > 0)]. *)
Definition placebo_of (row : Event * option Q) : option Placebo :=
  match snd row with
  | Some past_rating_20 =>
      let gain := rating_at_submission (fst row) - past_rating_20 in
      Some {| ev := fst row;
              placebo_gain_20 := gain;
              placebo_improved_20 := if Qle_bool gain 0 then 0%Z else 1%Z |}
  | None => None
  end.

Definition placebos (panel : list Event) : list Placebo :=
  Polars.drop_nulls
    (map placebo_of (shift_pos_over_handle 20 (sort_by_handle_time panel))).

(** ** Step 2: the state buckets, as [validation.py] writes them *)

Definition bin_rating_of (e : Event) : Z :=
  Polars.round0 (rating_at_submission e / 100).

Definition bin_acc_of (e : Event) : option Z :=
  option_map (fun acc => Polars.round0 (acc * 10)) (roll_acc_20 e).

Definition bin_diff_of (e : Event) : option Z :=
  match roll_ok_diff_20 e with
  | None => None
  | Some d =>
      let coerced := if is_infinite d then Fin 0 else fill_nan (Fin 0) d in
      match fdiv coerced (Fin 200) with
      | Fin q => Some (Polars.round0 q)
      | _ => None
      end
  end.

Definition stratum_of (e : Event) : Stratum :=
  {| bin_rating := bin_rating_of e;
     bin_acc := bin_acc_of e;
     bin_diff := bin_diff_of e |}.

(** ** Step 3: the baseline placebo *)

(** A row of the [group_by(...).agg(...)] frame: two means, no count. *)
Record BaselineAgg : Type := {
  agg_bins : Stratum;
  agg_placebo_gain : Q;
  agg_placebo_improve_prob : Q
}.

Record BaselinePlacebo : Type := {
  baseline_bins : Stratum;
  baseline_placebo_gain : Q;
  baseline_placebo_improve_prob : Q;
  baseline_count : Z
}.

Definition gains (g : list Placebo) : list Q := map placebo_gain_20 g.
Definition improveds (g : list Placebo) : list Q :=
  map (fun o => inject_Z (placebo_improved_20 o)) g.

Definition baseline_agg (kg : Stratum * list Placebo) : BaselineAgg :=
  {| agg_bins := fst kg;
     agg_placebo_gain := Polars.mean (gains (snd kg));
     agg_placebo_improve_prob := Polars.mean (improveds (snd kg)) |}.

(** [baseline_count] is [pl.count().over(bins)] evaluated on the
    aggregated frame: the number of rows of that frame with the same
    buckets, then filtered by [baseline_count >= 20]. *)
Definition baseline_placebo (lf : list Placebo) : list BaselinePlacebo :=
  let aggregated :=
    map baseline_agg
      (Polars.group_by stratum_eqb (fun o => stratum_of (ev o)) lf) in
  filter (fun b => (20 <=? baseline_count b)%Z)
    (map
       (fun ac : BaselineAgg * Z =>
          {| baseline_bins := agg_bins (fst ac);
             baseline_placebo_gain := agg_placebo_gain (fst ac);
             baseline_placebo_improve_prob :=
               agg_placebo_improve_prob (fst ac);
             baseline_count := snd ac |})
       (Polars.over stratum_eqb agg_bins
          (fun g => Polars.count g) aggregated)).

(** ** Step 4: the treated placebo *)

Record TreatedPlacebo : Type := {
  treated_problem : string;
  treated_bins : Stratum;
  treated_placebo_gain : Q;
  treated_count : Z;
  treated_placebo_improve_prob : Q
}.

Definition task_stratum_eqb (k1 k2 : string * Stratum) : bool :=
  String.eqb (fst k1) (fst k2) && stratum_eqb (snd k1) (snd k2).

Definition task_stratum_of (o : Placebo) : string * Stratum :=
  (id_of_submission_task (ev o), stratum_of (ev o)).

Definition treated_agg (kg : (string * Stratum) * list Placebo)
  : TreatedPlacebo :=
  {| treated_problem := fst (fst kg);
     treated_bins := snd (fst kg);
     treated_placebo_gain := Polars.mean (gains (snd kg));
     treated_count := Polars.count (gains (snd kg));
     treated_placebo_improve_prob := Polars.mean (improveds (snd kg)) |}.

Definition treated_placebo (lf : list Placebo) : list TreatedPlacebo :=
  filter (fun t => (20 <=? treated_count t)%Z)
    (map treated_agg
       (Polars.group_by task_stratum_eqb task_stratum_of lf)).

(** ** Step 5: join and bias per (task, stratum) *)

Record BiasRow : Type := {
  b_treated : TreatedPlacebo;
  b_baseline : BaselinePlacebo
}.

Definition selection_bias (r : BiasRow) : Q :=
  treated_placebo_gain (b_treated r)
  - baseline_placebo_gain (b_baseline r).

Definition probability_selection_bias (r : BiasRow) : Q :=
  treated_placebo_improve_prob (b_treated r)
  - baseline_placebo_improve_prob (b_baseline r).

Definition bias_df (ts : list TreatedPlacebo) (bs : list BaselinePlacebo)
  : list BiasRow :=
  filter (fun r => Qle_bool (Qabs (selection_bias r)) 300)
    (flat_map
       (fun t =>
          map (fun b => {| b_treated := t; b_baseline := b |})
            (filter
               (fun b => stratum_join_eqb (treated_bins t) (baseline_bins b))
               bs))
       ts).

(** ** Step 6: the bias per task *)

Record BiasRecord : Type := {
  bias_problem : string;
  bias_score : Q;
  probability_bias_score : Q;
  total_samples : Z
}.

Definition bias_agg (kg : string * list BiasRow) : BiasRecord :=
  let g := snd kg in
  let counts := map (fun r => treated_count (b_treated r)) g in
  {| bias_problem := fst kg;
     bias_score :=
       Polars.Qsum
         (map (fun r => selection_bias r
                        * inject_Z (treated_count (b_treated r))) g)
       / inject_Z (Polars.Zsum counts);
     probability_bias_score :=
       Polars.Qsum
         (map (fun r => probability_selection_bias r
                        * inject_Z (treated_count (b_treated r))) g)
       / inject_Z (Polars.Zsum counts);
     total_samples := Polars.Zsum counts |}.

Definition bias_desc (r1 r2 : BiasRecord) : bool :=
  Qle_bool (bias_score r2) (bias_score r1).

Definition aggregated_bias (rows : list BiasRow) : list BiasRecord :=
  Polars.sort bias_desc
    (map bias_agg
       (Polars.group_by String.eqb
          (fun r => treated_problem (b_treated r)) rows)).

(** [run_placebo_test(features_path)]: the table written to
    [placebo_selection_bias.parquet]. *)
Definition run_placebo_test (panel : list Event) : list BiasRecord :=
  let lf := placebos panel in
  aggregated_bias (bias_df (treated_placebo lf) (baseline_placebo lf)).

End Validation.

(* ================================================================== *)
(** * The bucket function of the specification *)
(* ================================================================== *)

Module Spec.
(** [bucket(x, width) = round(x / width)], cast to integer. *)
Definition bucket (x width : Q) : Z := Polars.round0 (x / width).
End Spec.

(* ================================================================== *)
(** * An executable instance of the numerical primitives *)
(* ================================================================== *)

(** Rational stand-ins with which the pipeline can be run on concrete
    tables: a square root rounded up to twelve decimals, the sample
    standard deviation through it, and a monotone step function below the
    normal CDF on the right and above it on the left. *)
Module Approx.

Definition scale : Z := 10 ^ 12.

Definition sqrt_up (q : Q) : Q :=
  if Qeq_bool q 0 then 0
  else inject_Z (Z.sqrt (Qfloor (q * inject_Z (scale * scale))) + 1)
       / inject_Z scale.

Definition sample_variance (l : list Q) : Q :=
  Polars.Qsum (map (fun x => (x - Polars.mean l) ^ 2) l)
  / inject_Z (Polars.count l - 1).

Definition std (l : list Q) : Q := sqrt_up (sample_variance l).

Definition cdf_steps (x : Q) : Q :=
  if Qle_bool 6 x then 1
  else if Qle_bool 3 x then 9986 # 10000
  else if Qle_bool 0 x then 1 # 2
  else if Qle_bool (-3) x then 14 # 10000
  else 0.

#[export] Instance numerics : Numerics := {|
  std_sample := std;
  sqrt_pos := sqrt_up;
  norm_cdf_fin := cdf_steps
|}.

End Approx.

(* ================================================================== *)
(** * Concrete tables *)
(* ================================================================== *)

Module Scenario.
Import CausalEngine.

Definition stratum_A : Stratum :=
  {| bin_rating := 15; bin_acc := Some 5%Z; bin_diff := Some 7%Z |}.
Definition stratum_B : Stratum :=
  {| bin_rating := 16; bin_acc := Some 5%Z; bin_diff := Some 7%Z |}.

(** The worked scenario: task P with the strata A and B.  The
    improvement rates, which the scenario leaves open, are arguments. *)
Definition treatment (pA pB : Q) : list TreatmentStats :=
  [ {| treated_problem := "P"; treated_bins := stratum_A;
       treated_gain := 60; treated_std := 40; treated_count := 100;
       treated_improve_prob := pA |};
    {| treated_problem := "P"; treated_bins := stratum_B;
       treated_gain := 30; treated_std := 30; treated_count := 50;
       treated_improve_prob := pB |} ].

Definition baseline (qA qB : Q) : list BaselineStats :=
  [ {| baseline_bins := stratum_A;
       baseline_gain := 20; baseline_std := 50; baseline_count := 1000;
       baseline_improve_prob := qA |};
    {| baseline_bins := stratum_B;
       baseline_gain := 10; baseline_std := 45; baseline_count := 500;
       baseline_improve_prob := qB |} ].

(** A user's history of 21 submissions, one per time unit: the
    submission at position [at_] is on [task] with verdict [v], the
    others are accepted submissions on "filler"; the rating starts at
    [r0] and changes by [step] per submission. *)
Definition history (h : string) (task v : string) (at_ : nat)
  (r0 step : Z) : list Event :=
  map (fun i : nat =>
         let here := Nat.eqb i at_ in
         {| handle := h;
            time := Z.of_nat i;
            id_of_submission_task := if here then task else "filler";
            verdict := if here then v else "OK";
            rating_at_submission := inject_Z (r0 + step * Z.of_nat i);
            roll_acc_20 := Some (1 # 2);
            roll_ok_diff_20 := Some (Fin 1400) |})
      (seq 0 21).

Definition user (i : nat) : string :=
  String (ascii_of_nat (48 + i)) EmptyString.

(** Ten users whose first submission is a rejected attempt at task P,
    followed by twenty other submissions; the rating stays at 1500. *)
Definition panel_rejected : list Event :=
  flat_map (fun i => history (user i) "P" "WRONG_ANSWER" 0 1500 0)
           (seq 0 10).

(** Twenty users whose rating rises by one point per submission from
    1000 and who then attempt task Q, and twenty users whose rating is
    flat at 1020 and who then attempt task R. *)
Definition panel_rising : list Event :=
  flat_map (fun i => history (user i) "Q" "OK" 20 1000 1) (seq 0 20)
  ++ flat_map (fun i => history (user i) "R" "OK" 20 1020 0) (seq 20 20).

End Scenario.


(* ================================================================== *)
(** * [backend/data_loader.py]: [DataLoader.clean_and_prepare] *)
(* ================================================================== *)

Module Schema.
Definition COL_HANDLE : string := "handle".
Definition COL_USER_RATING : string := "rating_at_submission".
Definition COL_PROBLEM_RATING : string := "problem_rating".
Definition COL_PROBLEM_ID : string := "id_of_submission_task".
Definition COL_VERDICT : string := "verdict".
Definition COL_TIMESTAMP : string := "time".
End Schema.

Module DataLoader.

(** A row of [submissions.parquet], with the columns the loader and the
    metadata job read, after the casts to Int64 and Float64.  The loader
    checks that the verdict column exists, not that it is filled: a
    verdict may be null.  The handle and the task id are not null, as in
    [Event]. *)
Record Submission : Type := {
  handle : string;
  time : option Z;
  rating_at_submission : option Q;
  problem_rating : option Q;
  id_of_submission_task : string;
  verdict : option string
}.

(** What the caller gets when it collects the returned frame: the rows,
    the [ValueError] of the schema check with the missing names, or the
    error of a column the plan names and the frame does not have. *)
Inductive Outcome : Type :=
| Ok (rows : list Submission)
| ValueError (missing : list string)
| ColumnNotFound (column : string).

Definition required_columns : list string :=
  [ Schema.COL_HANDLE; Schema.COL_TIMESTAMP; Schema.COL_USER_RATING;
    Schema.COL_PROBLEM_ID; Schema.COL_VERDICT ].

Definition has_column (columns : list string) (c : string) : bool :=
  existsb (String.eqb c) columns.

(** [required_columns - set(lf.columns)] *)
Definition missing_columns (columns : list string) : list string :=
  filter (fun c => negb (has_column columns c)) required_columns.

(** [rating.is_not_null() & (rating >= MIN_RATING) & (rating <= MAX_RATING)] *)
Definition rating_in_range (s : Submission) : bool :=
  match rating_at_submission s with
  | Some r => Qle_bool Config.MIN_RATING r && Qle_bool r Config.MAX_RATING
  | None => false
  end.

(** [columns] is [lf.columns]; [rows] holds the values of the columns the
    plan reads.  The plan casts [COL_PROBLEM_RATING], which the schema
    check does not ask for. *)
Definition clean_and_prepare (columns : list string)
  (rows : list Submission) : Outcome :=
  match missing_columns columns with
  | (_ :: _) as missing => ValueError missing
  | [] =>
      if has_column columns Schema.COL_PROBLEM_RATING
      then Ok (filter rating_in_range rows)
      else ColumnNotFound Schema.COL_PROBLEM_RATING
  end.

End DataLoader.

(* ================================================================== *)
(** * [compute_problem_meta.py]: [compute_problem_metadata] *)
(* ================================================================== *)

Module ProblemMeta.

(** [Expr.mean] of a nullable column: the mean of the values that are not
    null, null when there is none. *)
Definition mean_opt (l : list (option Q)) : option Q :=
  match Polars.drop_nulls l with
  | [] => None
  | (_ :: _) as values => Some (Polars.mean values)
  end.

(** [pl.col(COL_VERDICT) == "OK"] where a filter or a sum reads it: a
    null verdict gives a null, which the filter drops and the sum skips. *)
Definition is_ok (s : DataLoader.Submission) : bool :=
  match DataLoader.verdict s with
  | Some v => String.eqb v "OK"
  | None => false
  end.

(** [Expr.count] counts the values that are not null. *)
Definition has_verdict (s : DataLoader.Submission) : bool :=
  match DataLoader.verdict s with
  | Some _ => true
  | None => false
  end.

(** [Expr.clip(lo, hi)] *)
Definition clip (lo hi x : Q) : Q :=
  if Qle_bool x lo then lo else if Qle_bool hi x then hi else x.

Record ProblemStats : Type := {
  problem_id : string;
  avg_provided_rating : option Q;
  avg_solver_rating : option Q;
  total_submissions : Z;
  ok_count : Z;
  has_sufficient_support : bool;
  estimated_difficulty : option Q;
  acceptance_rate : f64;
  stable_acceptance : bool
}.

(** trust provided ratings more when available *)
Definition alpha : Q := 7 # 10.

(** A float against a constant, as a filter or flag evaluates it. *)
Definition fgeb (x : f64) (c : Q) : bool :=
  match x with
  | Fin q => Qle_bool c q
  | PInf | NaN => true
  | NInf => false
  end.

Definition stats_of (kg : string * list DataLoader.Submission)
  : ProblemStats :=
  let g := snd kg in
  let provided := mean_opt (map DataLoader.problem_rating g) in
  let solver :=
    mean_opt (map DataLoader.rating_at_submission (filter is_ok g)) in
  let total := Polars.count (filter has_verdict g) in
  let ok := Polars.count (filter is_ok g) in
  let shrunk :=
    match provided with
    | Some p =>
        match solver with
        | Some s => Some (alpha * p + (1 - alpha) * s)
        | None => None
        end
    | None => solver
    end in
  let rate :=
    fill_nan (Fin 0) (fdiv (Fin (inject_Z ok)) (Fin (inject_Z total))) in
  {| problem_id := fst kg;
     avg_provided_rating := provided;
     avg_solver_rating := solver;
     total_submissions := total;
     ok_count := ok;
     has_sufficient_support := (50 <=? total)%Z;
     estimated_difficulty :=
       option_map (clip Config.MIN_RATING Config.MAX_RATING) shrunk;
     acceptance_rate := rate;
     stable_acceptance := fgeb rate (5 # 100) |}.

Definition compute_problem_metadata (lf : list DataLoader.Submission)
  : list ProblemStats :=
  map stats_of
    (Polars.group_by String.eqb DataLoader.id_of_submission_task lf).

End ProblemMeta.

(* ================================================================== *)
(** * [recommender_service.py]: [RecommenderService.recommend] *)
(* ================================================================== *)

Module Recommender.

(** A row of [self.detailed_effects] after [load_data]: a significant
    task with its survival and metadata columns joined on; the hazard
    ratio and the sequence confidence have had their nulls filled. *)
Record Rule : Type := {
  rule_problem : string;
  att_score : Q;
  att_probability_uplift : Q;
  p_value : Q;
  total_treated_samples : Z;
  hazard_ratio : Q;
  median_time_to_improve : option Q;
  sequence_confidence : Q;
  estimated_difficulty : option Q
}.

(** [(estimated_difficulty >= current_rating - 200)
     & (estimated_difficulty <= current_rating + 400)]; a null difficulty
    fails the filter. *)
Definition in_window (current_rating : Q) (r : Rule) : bool :=
  match estimated_difficulty r with
  | Some d =>
      Qle_bool (current_rating - 200) d && Qle_bool d (current_rating + 400)
  | None => false
  end.

Definition final_score (r : Rule) : Q :=
  att_score r * att_probability_uplift r * hazard_ratio r
  * (1 + sequence_confidence r).

Definition score_desc (r1 r2 : Rule) : bool :=
  Qle_bool (final_score r2) (final_score r1).

(** One returned dictionary; of its [explanation] text the record keeps
    the final score the text prints, as [score]. *)
Record Recommendation : Type := {
  problem_id : string;
  uplift : Q;
  probability_uplift : Q;
  rec_p_value : Q;
  rec_hazard_ratio : Q;
  rec_median_time_to_improve : Q;
  rec_estimated_difficulty : option Q;
  sample_size : Z;
  score : Q
}.

Definition to_recommendation (r : Rule) : Recommendation :=
  {| problem_id := rule_problem r;
     uplift := att_score r;
     probability_uplift := att_probability_uplift r;
     rec_p_value := p_value r;
     rec_hazard_ratio := hazard_ratio r;
     rec_median_time_to_improve :=
       match median_time_to_improve r with Some m => m | None => - (1) end;
     rec_estimated_difficulty := estimated_difficulty r;
     sample_size := total_treated_samples r;
     score := final_score r |}.

(** The candidates are the rules in the difficulty window of the user,
    or all rules when the window is empty; [recent_acc] and
    [recent_diff_avg] are not read.  [top_k] is not negative.  The sort of
    the model is stable; polars does not fix the order of equal scores. *)
Definition candidates (detailed_effects : list Rule) (current_rating : Q)
  : list Rule :=
  match filter (in_window current_rating) detailed_effects with
  | [] => detailed_effects
  | (_ :: _) as found => found
  end.

Definition recommend (detailed_effects : list Rule)
  (current_rating recent_acc recent_diff_avg : Q) (top_k : nat)
  : list Recommendation :=
  map to_recommendation
    (firstn top_k
       (Polars.sort score_desc (candidates detailed_effects current_rating))).

End Recommender.

(* ================================================================== *)
(** * Names for the properties of the outcome frames *)
(* ================================================================== *)

(** The key of a row of [treatment_stats]: the task and the stratum. *)
Definition treated_key (t : CausalEngine.TreatmentStats) : string * Stratum :=
  (CausalEngine.treated_problem t, CausalEngine.treated_bins t).

Module Gains.

(** The rows of the user [h]. *)
Definition of_user (h : string) (e : Event) : bool :=
  String.eqb h (handle e).

(** The ratings of the user [h] in frame order. *)
Definition ratings_of (h : string) (rows : list Event) : list Q :=
  map rating_at_submission (filter (of_user h) rows).

(** The differences [y - x] of the values paired position by position,
    up to the end of the shorter column. *)
Fixpoint differences (xs ys : list Q) : list Q :=
  match xs, ys with
  | x :: xs', y :: ys' => (y - x) :: differences xs' ys'
  | _, _ => []
  end.

(** The gains of a column of ratings over [n] positions. *)
Definition gains_over (n : nat) (ratings : list Q) : list Q :=
  differences ratings (skipn n ratings).

(** The gains over [n] positions computed backwards: [seen] holds the
    ratings already passed, the latest first. *)
Fixpoint gains_back (n : nat) (seen ratings : list Q) : list Q :=
  match ratings with
  | [] => []
  | x :: rest =>
      match nth_error (x :: seen) n with
      | Some y => (x - y) :: gains_back n (x :: seen) rest
      | None => gains_back n (x :: seen) rest
      end
  end.

End Gains.

Module Samples.

Definition six_columns : list string :=
  [ "handle"; "time"; "rating_at_submission"; "problem_rating";
    "id_of_submission_task"; "verdict" ]%string.

Definition submission (h : string) (t : Z) (r : option Q) (p v : string)
  : DataLoader.Submission :=
  {| DataLoader.handle := h;
     DataLoader.time := Some t;
     DataLoader.rating_at_submission := r;
     DataLoader.problem_rating := None;
     DataLoader.id_of_submission_task := p;
     DataLoader.verdict := Some v |}.

(** Four raw submissions: two within the rating range, one below it and
    one without a rating. *)
Definition raw_rows : list DataLoader.Submission :=
  [ submission "ann" 1 (Some 1520) "P" "OK";
    submission "bob" 2 (Some 700) "P" "WRONG_ANSWER";
    submission "cat" 3 None "Q" "OK";
    submission "ann" 4 (Some 4000) "Q" "WRONG_ANSWER" ]%string.

(** The rows of [raw_rows] within the rating range. *)
Definition cleaned_rows : list DataLoader.Submission :=
  [ submission "ann" 1 (Some 1520) "P" "OK";
    submission "ann" 4 (Some 4000) "Q" "WRONG_ANSWER" ]%string.

(** Two submissions on task N whose verdict was not recorded, and two
    on task P, one of them accepted. *)
Definition unjudged_rows : list DataLoader.Submission :=
  [ {| DataLoader.handle := "ann"; DataLoader.time := Some 1%Z;
       DataLoader.rating_at_submission := Some 1520;
       DataLoader.problem_rating := Some 1600;
       DataLoader.id_of_submission_task := "N";
       DataLoader.verdict := None |};
    submission "ann" 2 (Some 1520) "P" "OK";
    {| DataLoader.handle := "bob"; DataLoader.time := Some 3%Z;
       DataLoader.rating_at_submission := Some 1400;
       DataLoader.problem_rating := Some 1600;
       DataLoader.id_of_submission_task := "N";
       DataLoader.verdict := None |};
    submission "bob" 4 (Some 1400) "P" "WRONG_ANSWER" ]%string.


(** The Float64 statistics of a panel of 63 users in stratum A who all
    gain 1533.3 - 1500.0 = 33.299999999999955 points over their next
    twenty submissions, 60 of them counted from an attempt at task P and
    3 from an attempt at another task.  In Float64 the mean of the 60
    treated gains is 33.299999999999955 and the mean of the 63 baseline
    gains is 33.29999999999995 (the quotient sum / 63 is rounded); both
    standard deviations are 0.0.  The two means are written as the exact
    values of these doubles; they differ by 2^-47. *)
Definition flat_treatment : list CausalEngine.TreatmentStats :=
  [ {| CausalEngine.treated_problem := "P";
       CausalEngine.treated_bins := Scenario.stratum_A;
       CausalEngine.treated_gain := 146454948819763 # 4398046511104;
       CausalEngine.treated_std := 0;
       CausalEngine.treated_count := 60;
       CausalEngine.treated_improve_prob := 1 |} ].

Definition flat_baseline : list CausalEngine.BaselineStats :=
  [ {| CausalEngine.baseline_bins := Scenario.stratum_A;
       CausalEngine.baseline_gain := 4686558362232415 # 140737488355328;
       CausalEngine.baseline_std := 0;
       CausalEngine.baseline_count := 63;
       CausalEngine.baseline_improve_prob := 1 |} ].

Definition effect_of (att : Q) : CausalEngine.ProblemEffect :=
  {| CausalEngine.pe_problem := "P";
     CausalEngine.att_score := att;
     CausalEngine.att_variance := 4;
     CausalEngine.pe_total_treated_samples := 100;
     CausalEngine.avg_rating_level := 15;
     CausalEngine.att_probability_uplift := 1 # 10 |}.

(** Three users with twenty submissions each. *)
Definition panel_short : list Event :=
  flat_map
    (fun i =>
       firstn 20 (Scenario.history (Scenario.user i) "P" "OK" 0 1500 5))
    (seq 0 3).

End Samples.

(* ================================================================== *)
(** * Properties *)
(* ================================================================== *)

(** ** Dataframe operators *)

Section PolarsFacts.
Context {A K : Type}.
Variable eqb : K -> K -> bool.
Hypothesis eqb_eq : forall x y, eqb x y = true <-> x = y.

Lemma eqb_refl_of : forall x, eqb x x = true.
Proof. intro x. apply eqb_eq. reflexivity. Qed.

Lemma In_distinct : forall (l : list K) k,
    In k (Polars.distinct eqb l) <-> In k l.
Proof.
  induction l as [|a l IH]; intro k; simpl.
  - tauto.
  - rewrite filter_In, IH. split.
    + intros [->|[Hk _]]; auto.
    + intros [->|Hk]; auto.
      destruct (eqb k a) eqn:E.
      * left. symmetry. apply eqb_eq. exact E.
      * right. split; auto.
Qed.

Lemma NoDup_distinct : forall l : list K, NoDup (Polars.distinct eqb l).
Proof.
  induction l as [|a l IH]; simpl.
  - constructor.
  - constructor.
    + rewrite filter_In. intros [_ H].
      rewrite eqb_refl_of in H. discriminate.
    + apply NoDup_filter. exact IH.
Qed.

Lemma filter_key_absent : forall (l : list K) k,
    ~ In k l -> filter (fun k' => eqb k' k) l = [].
Proof.
  induction l as [|a l IH]; intros k Hnot; simpl; [reflexivity|].
  destruct (eqb a k) eqn:E.
  - apply eqb_eq in E. subst a. exfalso. apply Hnot. left. reflexivity.
  - apply IH. intro H. apply Hnot. right. exact H.
Qed.

(** A key occurs once in a frame whose key column has no repetition. *)
Lemma count_key_NoDup : forall (l : list K) k,
    NoDup l -> In k l ->
    List.length (filter (fun k' => eqb k' k) l) = 1%nat.
Proof.
  induction l as [|a l IH]; intros k Hnd Hin.
  - destruct Hin.
  - inversion Hnd as [|? ? Hnot Hnd']; subst. simpl.
    destruct (eqb a k) eqn:E.
    + apply eqb_eq in E. subst a.
      rewrite filter_key_absent by exact Hnot. reflexivity.
    + destruct Hin as [->|Hin].
      * rewrite eqb_refl_of in E. discriminate.
      * apply IH; assumption.
Qed.

Lemma In_group_by : forall (key : A -> K) (rows : list A) k g,
    In (k, g) (Polars.group_by eqb key rows) ->
    g = filter (fun r => eqb (key r) k) rows
    /\ exists r, In r rows /\ key r = k.
Proof.
  unfold Polars.group_by. intros key rows k g H.
  apply in_map_iff in H. destruct H as [k' [Heq Hin]].
  inversion Heq; subst. split; [reflexivity|].
  apply (proj1 (In_distinct _ _)) in Hin. apply in_map_iff in Hin.
  destruct Hin as [r [Hr Hin]]. exists r. auto.
Qed.


Lemma In_group_member : forall (key : A -> K) (rows : list A) k r,
    In r (filter (fun r => eqb (key r) k) rows) <-> In r rows /\ key r = k.
Proof.
  intros. rewrite filter_In. rewrite eqb_eq. tauto.
Qed.
End PolarsFacts.

Lemma filter_map_comm {A B} (f : A -> B) (p : B -> bool) (l : list A) :
  filter p (map f l) = map f (filter (fun a => p (f a)) l).
Proof.
  induction l as [|a l IH]; simpl; [reflexivity|].
  destruct (p (f a)); simpl; rewrite IH; reflexivity.
Qed.


Section SortFacts.
Context {A : Type}.
Variable le : A -> A -> bool.

Lemma In_insert_sorted : forall (l : list A) x y,
    In y (Polars.insert_sorted le x l) <-> y = x \/ In y l.
Proof.
  induction l as [|a l IH]; intros x y; simpl.
  - intuition.
  - destruct (le x a); simpl; [intuition|].
    rewrite IH. intuition.
Qed.

Lemma In_sort : forall (l : list A) y, In y (Polars.sort le l) <-> In y l.
Proof.
  induction l as [|a l IH]; intro y; simpl; [tauto|].
  rewrite In_insert_sorted, IH. intuition.
Qed.
End SortFacts.

Lemma stratum_eqb_eq : forall s1 s2, stratum_eqb s1 s2 = true <-> s1 = s2.
Proof.
  intros [r1 a1 d1] [r2 a2 d2]. unfold stratum_eqb. simpl.
  rewrite !andb_true_iff, Z.eqb_eq. split.
  - intros [[-> Ha] Hd].
    destruct a1, a2, d1, d2; simpl in *; try discriminate;
      repeat match goal with H : Z.eqb _ _ = true |- _ =>
                               apply Z.eqb_eq in H; subst end;
      reflexivity.
  - intro H. inversion H; subst.
    repeat split; try reflexivity;
      [destruct a2 | destruct d2]; simpl; auto using Z.eqb_refl.
Qed.

Lemma stratum_join_eqb_eq : forall s1 s2,
    stratum_join_eqb s1 s2 = true -> s1 = s2.
Proof.
  intros [r1 a1 d1] [r2 a2 d2]. unfold stratum_join_eqb. simpl.
  rewrite !andb_true_iff, Z.eqb_eq. intros [[-> Ha] Hd].
  destruct a1, a2, d1, d2; simpl in *; try discriminate.
  apply Z.eqb_eq in Ha, Hd. subst. reflexivity.
Qed.

(** ** Rounding and buckets *)

#[local] Instance round0_Proper : Proper (Qeq ==> eq) Polars.round0.
Proof.
  intros x y Hxy. unfold Polars.round0.
  assert (Hb : Qle_bool 0 x = Qle_bool 0 y).
  { destruct (Qle_bool 0 x) eqn:Ex, (Qle_bool 0 y) eqn:Ey; try reflexivity.
    - apply Qle_bool_iff in Ex. rewrite Hxy in Ex.
      apply Qle_bool_iff in Ex. congruence.
    - apply Qle_bool_iff in Ey. rewrite <- Hxy in Ey.
      apply Qle_bool_iff in Ey. congruence. }
  rewrite Hb. destruct (Qle_bool 0 y).
  - apply Qfloor_comp. rewrite Hxy. reflexivity.
  - apply Qceiling_comp. rewrite Hxy. reflexivity.
Qed.



(** The bucket expression itself passes a null through: a null reaches
    neither branch of the coercion. *)
Lemma bin_diff_of_null : forall e,
    CausalEngine.bin_diff_of (with_difficulty e None) = None.
Proof. reflexivity. Qed.

(** The feature job fills the null of the quotient with 0.0, and a
    quotient by a zero count is NaN or an infinity: the column it writes
    holds no null, and these values fall into the bucket 0. *)
Lemma feature_difficulty_bucket :
  forall (e : Event) (s : option Q) (c : option Z),
    Features.roll_ok_diff s c <> None
    /\ CausalEngine.bin_diff_of
         (with_difficulty e (Features.roll_ok_diff None c)) = Some 0%Z
    /\ CausalEngine.bin_diff_of
         (with_difficulty e (Features.roll_ok_diff s None)) = Some 0%Z
    /\ CausalEngine.bin_diff_of
         (with_difficulty e (Features.roll_ok_diff s (Some 0%Z))) = Some 0%Z.
Proof.
  intros e s c. split.
  { unfold Features.roll_ok_diff. destruct s, c; discriminate. }
  repeat split; try reflexivity; try (destruct s; reflexivity).
  destruct s as [q|]; [|reflexivity].
  unfold with_difficulty, CausalEngine.bin_diff_of. simpl roll_ok_diff_20.
  unfold Features.roll_ok_diff.
  change (inject_Z 0) with 0.
  unfold fdiv. change (Qeq_bool 0 0) with true. cbv iota.
  destruct (Qsign_pos q); [reflexivity|].
  destruct (Qsign_neg q); reflexivity.
Qed.

(** A stratum with a null bucket matches nothing in the inner join: no
    row of [effect_df] has a null accuracy or difficulty bucket. *)
Lemma effect_rows_buckets_not_null :
  forall (min_samples : Z) ts bs j,
    In j (CausalEngine.effect_rows min_samples ts bs) ->
    bin_acc (CausalEngine.treated_bins (CausalEngine.j_treated j)) <> None
    /\ bin_diff (CausalEngine.treated_bins (CausalEngine.j_treated j))
       <> None.
Proof.
  intros ms ts bs j Hj. unfold CausalEngine.effect_rows in Hj.
  apply filter_In in Hj. destruct Hj as [Hj _].
  apply filter_In in Hj. destruct Hj as [Hj _].
  unfold CausalEngine.join_on_bins in Hj. apply in_flat_map in Hj.
  destruct Hj as [t [_ Hj]]. apply in_map_iff in Hj.
  destruct Hj as [b [<- Hb]]. apply filter_In in Hb.
  destruct Hb as [_ Hb]. cbn [CausalEngine.j_treated].
  unfold stratum_join_eqb in Hb. rewrite !andb_true_iff in Hb.
  destruct Hb as [[_ Ha] Hd].
  destruct (bin_acc (CausalEngine.treated_bins t));
    destruct (bin_diff (CausalEngine.treated_bins t));
    simpl in Ha, Hd; split; discriminate.
Qed.



#[local] Instance bucket_Proper : Proper (Qeq ==> Qeq ==> eq) Spec.bucket.
Proof.
  intros x x' Hx w w' Hw. unfold Spec.bucket.
  apply round0_Proper. rewrite Hx, Hw. reflexivity.
Qed.

(** C9: the placebo pipeline computes for every event the stratum key of
    the forward pipeline; each bucket is the specification's
    [bucket(x, width)] at the configured width, and [bucket] sends equal
    rationals (whatever their representation) to the same integer. *)
Theorem C9_bucket_determinism :
  (forall e : Event, Validation.stratum_of e = CausalEngine.stratum_of e)
  /\ Proper (Qeq ==> Qeq ==> eq) Spec.bucket
  /\ (forall e : Event,
         CausalEngine.bin_rating_of e
         = Spec.bucket (rating_at_submission e) Config.RATING_BIN_SIZE)
  /\ (forall (e : Event) (acc : Q),
         CausalEngine.bin_acc_of
           {| handle := handle e; time := time e;
              id_of_submission_task := id_of_submission_task e;
              verdict := verdict e;
              rating_at_submission := rating_at_submission e;
              roll_acc_20 := Some acc;
              roll_ok_diff_20 := roll_ok_diff_20 e |}
         = Some (Spec.bucket acc Config.ACCURACY_BIN_SIZE))
  /\ (forall (e : Event) (x : Q),
         CausalEngine.bin_diff_of (with_difficulty e (Some (Fin x)))
         = Some (Spec.bucket x Config.DIFFICULTY_BIN_SIZE)).
Proof.
  split; [reflexivity|].
  split; [exact bucket_Proper|].
  split; [reflexivity|].
  split.
  - intros e acc. reflexivity.
  - intros e x. reflexivity.
Qed.

(** ** The placebo validator *)

(** On the aggregated baseline frame every stratum is one row, so the
    windowed count is 1 for each row. *)
Lemma baseline_placebo_window_count : forall (lf : list Validation.Placebo),
    let aggregated :=
      map Validation.baseline_agg
        (Polars.group_by stratum_eqb
           (fun o => Validation.stratum_of (Validation.ev o)) lf) in
    Forall (fun ac : Validation.BaselineAgg * Z => snd ac = 1%Z)
      (Polars.over stratum_eqb Validation.agg_bins
         (fun g => Polars.count g) aggregated).
Proof.
  intros lf aggregated. apply Forall_forall. intros [a c] Hin.
  unfold Polars.over in Hin. apply in_map_iff in Hin.
  destruct Hin as [a' [Heq Ha']]. inversion Heq; subst a' c. clear Heq.
  simpl. unfold Polars.count.
  assert (Hkeys : map Validation.agg_bins aggregated
                  = Polars.distinct stratum_eqb
                      (map (fun o => Validation.stratum_of (Validation.ev o)) lf)).
  { unfold aggregated, Polars.group_by. rewrite !map_map. simpl.
    apply map_id. }
  assert (Hlen : List.length
                   (filter (fun r' => stratum_eqb (Validation.agg_bins r')
                                        (Validation.agg_bins a)) aggregated)
                 = List.length
                     (filter (fun k' => stratum_eqb k' (Validation.agg_bins a))
                        (map Validation.agg_bins aggregated))).
  { rewrite filter_map_comm, length_map. reflexivity. }
  rewrite Hlen, Hkeys.
  rewrite (count_key_NoDup stratum_eqb stratum_eqb_eq).
  - reflexivity.
  - apply NoDup_distinct. exact stratum_eqb_eq.
  - rewrite <- Hkeys. apply in_map. exact Ha'.
Qed.

Lemma baseline_placebo_empty : forall lf, Validation.baseline_placebo lf = [].
Proof.
  intro lf. unfold Validation.baseline_placebo.
  pose proof (baseline_placebo_window_count lf) as H. simpl in H.
  induction H as [|[a c] l Hc _ IH]; simpl; [reflexivity|].
  simpl in Hc. subst c. simpl. exact IH.
Qed.

Lemma bias_df_no_baseline : forall ts, Validation.bias_df ts [] = [].
Proof.
  intro ts. unfold Validation.bias_df.
  induction ts as [|t ts IH]; simpl; [reflexivity|exact IH].
Qed.

(** C4: what the code does instead.  [baseline_count] is counted on the
    aggregated frame, where it is 1 for every stratum, so no baseline row
    passes [baseline_count >= 20] and the bias table is empty for every
    panel.  In the panel [panel_rising] task Q has twenty placebo events,
    all in one stratum that holds forty placebo events, with a mean placebo
    gain of 20 against 10 over the stratum; the table has no row for Q. *)
Theorem C4_placebo_bias_table_empty :
  (forall panel : list Event, Validation.run_placebo_test panel = [])
  /\ (let lf := Validation.placebos Scenario.panel_rising in
      map (fun t => (Validation.treated_problem t,
                     Validation.treated_count t,
                     Qred (Validation.treated_placebo_gain t)))
          (Validation.treated_placebo lf)
      = [("Q"%string, 20%Z, 20); ("R"%string, 20%Z, 0)]
      /\ map (fun kg : Stratum * list Validation.Placebo =>
                (Polars.count (snd kg),
                 Qred (Polars.mean (Validation.gains (snd kg)))))
             (Polars.group_by stratum_eqb
                (fun o => Validation.stratum_of (Validation.ev o)) lf)
         = [(40%Z, 10)]
      /\ Validation.run_placebo_test Scenario.panel_rising = []).
Proof.
  assert (Hall : forall panel, Validation.run_placebo_test panel = []).
  { intro panel. unfold Validation.run_placebo_test.
    rewrite baseline_placebo_empty, bias_df_no_baseline. reflexivity. }
  split; [exact Hall|].
  split; [vm_compute; reflexivity|].
  split; [vm_compute; reflexivity|].
  apply Hall.
Qed.

(** ** The treatment aggregator and the verdict *)

Section VerdictIsNotRead.
Import CausalEngine.
Context {N : Numerics}.
Variable v : Event -> string.

Lemma insert_sorted_with_verdict : forall e l,
    map (with_verdict v) (Polars.insert_sorted handle_time_le e l)
    = Polars.insert_sorted handle_time_le (with_verdict v e)
        (map (with_verdict v) l).
Proof.
  intros e l. induction l as [|a l IH]; simpl; [reflexivity|].
  change (handle_time_le (with_verdict v e) (with_verdict v a))
    with (handle_time_le e a).
  destruct (handle_time_le e a); simpl; [reflexivity|].
  rewrite IH. reflexivity.
Qed.

Lemma sort_with_verdict : forall panel,
    sort_by_handle_time (map (with_verdict v) panel)
    = map (with_verdict v) (sort_by_handle_time panel).
Proof.
  unfold sort_by_handle_time, Polars.sort.
  induction panel as [|e l IH]; simpl; [reflexivity|].
  rewrite IH, insert_sorted_with_verdict. reflexivity.
Qed.

Lemma lookup_with_verdict : forall e n l,
    option_map rating_at_submission
      (nth_error
         (filter (same_handle (with_verdict v e)) (map (with_verdict v) l)) n)
    = option_map rating_at_submission
        (nth_error (filter (same_handle e) l) n).
Proof.
  intros e n l. rewrite filter_map_comm, nth_error_map.
  change (fun a => same_handle (with_verdict v e) (with_verdict v a))
    with (same_handle e).
  destruct (nth_error (filter (same_handle e) l) n); reflexivity.
Qed.

Lemma shift_with_verdict : forall n rows,
    shift_neg_over_handle n (map (with_verdict v) rows)
    = map (fun row => (with_verdict v (fst row), snd row))
        (shift_neg_over_handle n rows).
Proof.
  intros n rows. induction rows as [|e l IH]; [reflexivity|].
  cbn [shift_neg_over_handle map fst snd]. rewrite IH. f_equal. f_equal.
  apply (lookup_with_verdict e n (e :: l)).
Qed.

Lemma outcomes_with_verdict : forall panel,
    outcomes (map (with_verdict v) panel)
    = map (outcome_with_verdict v) (outcomes panel).
Proof.
  intro panel. unfold outcomes.
  rewrite sort_with_verdict, shift_with_verdict, map_map.
  induction (shift_neg_over_handle 20 (sort_by_handle_time panel))
    as [|[e [future|]] l IH]; simpl; [reflexivity| |exact IH].
  rewrite IH. reflexivity.
Qed.

(** Rewriting the verdicts of the panel in any way leaves the treatment
    statistics as they are. *)
Lemma treatment_stats_ignores_verdict : forall panel,
    treatment_stats (outcomes (map (with_verdict v) panel))
    = treatment_stats (outcomes panel).
Proof.
  intro panel. rewrite outcomes_with_verdict.
  unfold treatment_stats, Polars.group_by. f_equal.
  rewrite !map_map.
  change (fun x => task_stratum_of (outcome_with_verdict v x))
    with task_stratum_of.
  apply map_ext. intro k. unfold treatment_agg. simpl.
  rewrite filter_map_comm.
  change (fun a => task_stratum_eqb (task_stratum_of (outcome_with_verdict v a)) k)
    with (fun a => task_stratum_eqb (task_stratum_of a) k).
  unfold gains, improveds. rewrite !map_map. reflexivity.
Qed.
End VerdictIsNotRead.

(** C3: what the code does instead.  The treatment groups are keyed by
    task and stratum and the verdict column is never read: rewriting the
    verdicts of a panel leaves the treatment statistics unchanged.  In
    [panel_rejected] every submission on task P is a rejected one, and the
    treatment statistics hold a row for P built from all ten of them. *)
Theorem C3_rejected_attempts_are_treated :
  forall N : Numerics,
    (forall (v : Event -> string) (panel : list Event),
        CausalEngine.treatment_stats
          (CausalEngine.outcomes (map (with_verdict v) panel))
        = CausalEngine.treatment_stats (CausalEngine.outcomes panel))
    /\ forallb
         (fun e => negb (String.eqb (id_of_submission_task e) "P")
                   || String.eqb (verdict e) "WRONG_ANSWER")
         Scenario.panel_rejected = true
    /\ map (fun t => (CausalEngine.treated_problem t,
                      CausalEngine.treated_count t,
                      Qred (CausalEngine.treated_gain t)))
           (CausalEngine.treatment_stats
              (CausalEngine.outcomes Scenario.panel_rejected))
       = [("P"%string, 10%Z, 0)].
Proof.
  intro N. split; [intros v panel; apply treatment_stats_ignores_verdict|].
  split; vm_compute; reflexivity.
Qed.

(** ** Sums *)


Lemma Qsum_ext {A} (f g : A -> Q) (l : list A) :
  (forall a, In a l -> f a == g a) ->
  Polars.Qsum (map f l) == Polars.Qsum (map g l).
Proof.
  induction l as [|a l IH]; intro H; simpl; [reflexivity|].
  rewrite (H a (or_introl eq_refl)), IH; [reflexivity|].
  intros b Hb. apply H. right. exact Hb.
Qed.

Lemma Qsum_scale {A} (f : A -> Q) (c : Q) (l : list A) :
  Polars.Qsum (map (fun a => f a * c) l) == Polars.Qsum (map f l) * c.
Proof.
  induction l as [|a l IH]; simpl; [ring|]. rewrite IH. ring.
Qed.

Lemma Qsum_inject_Z {A} (f : A -> Z) (l : list A) :
  Polars.Qsum (map (fun a => inject_Z (f a)) l)
  == inject_Z (Polars.Zsum (map f l)).
Proof.
  induction l as [|a l IH]; simpl; [reflexivity|].
  rewrite IH, inject_Z_plus. reflexivity.
Qed.

Lemma Qsum_nonneg : forall l,
    Forall (fun x => 0 <= x) l -> 0 <= Polars.Qsum l.
Proof.
  induction 1 as [|x l Hx _ IH]; simpl; lra.
Qed.

Lemma Qsum_zero_terms : forall l,
    Forall (fun x => 0 <= x) l -> Polars.Qsum l == 0 ->
    Forall (fun x => x == 0) l.
Proof.
  induction 1 as [|x l Hx Hl IH]; simpl; intro Hs; constructor.
  - pose proof (Qsum_nonneg l Hl). lra.
  - apply IH. pose proof (Qsum_nonneg l Hl). lra.
Qed.

Lemma Zsum_lower_bound {A} (f : A -> Z) (c : Z) (l : list A) :
  (0 <= c)%Z -> l <> [] -> (forall a, In a l -> (c <= f a)%Z) ->
  (c <= Polars.Zsum (map f l))%Z.
Proof.
  intros Hc Hne H. destruct l as [|a l]; [congruence|]. clear Hne.
  simpl. assert (Ha := H a (or_introl eq_refl)).
  assert (Hrest : (0 <= Polars.Zsum (map f l))%Z).
  { clear Ha. induction l as [|b l IH]; simpl; [lia|].
    assert (Hb := H b (or_intror (or_introl eq_refl))).
    assert ((0 <= Polars.Zsum (map f l))%Z).
    { apply IH. intros x [Hx|Hx]; apply H; [left|right; right]; assumption. }
    lia. }
  lia.
Qed.

Lemma mean_constant : forall (l : list Q) (c : Q),
    l <> [] -> (forall x, In x l -> x == c) -> Polars.mean l == c.
Proof.
  intros l c Hne Hc. unfold Polars.mean, Polars.count.
  assert (Hsum : Polars.Qsum l == c * inject_Z (Z.of_nat (List.length l))).
  { clear Hne. induction l as [|a l IH].
    - simpl. ring.
    - cbn [Polars.Qsum fold_right List.length].
      change (fold_right Qplus 0 l) with (Polars.Qsum l).
      rewrite IH by (intros x Hx; apply Hc; right; exact Hx).
      rewrite (Hc a (or_introl eq_refl)).
      rewrite Nat2Z.inj_succ. unfold Z.succ. rewrite inject_Z_plus. ring. }
  rewrite Hsum. field.
  destruct l as [|a l]; [congruence|].
  intro H0. unfold Qeq in H0. simpl in H0. lia.
Qed.

(** ** The shape of the engine's frames *)

Section EngineFacts.
Import CausalEngine.
Context {N : Numerics}.

Lemma with_weights_map : forall rows,
    with_weights rows = map (record_of rows) rows.
Proof.
  intro rows. unfold with_weights, Polars.over. rewrite map_map.
  reflexivity.
Qed.

Lemma task_group : forall rows p,
    filter (fun r => String.eqb (problem r) p) (with_weights rows)
    = map (record_of rows)
        (filter (fun j => String.eqb (j_problem j) p) rows).
Proof.
  intros rows p. rewrite with_weights_map, filter_map_comm. reflexivity.
Qed.

Lemma In_effect_rows : forall ms ts bs j,
    In j (effect_rows ms ts bs) ->
    In (j_treated j) ts /\ In (j_baseline j) bs
    /\ treated_bins (j_treated j) = baseline_bins (j_baseline j)
    /\ Qabs (uplift_of j) <= 300.
Proof.
  intros ms ts bs j H. unfold effect_rows in H.
  apply filter_In in H. destruct H as [H Hcap].
  apply filter_In in H. destruct H as [H _].
  unfold join_on_bins in H. apply in_flat_map in H.
  destruct H as [t [Ht H]]. apply in_map_iff in H.
  destruct H as [b [Hj Hb]]. apply filter_In in Hb.
  destruct Hb as [Hb Hkey]. subst j. simpl.
  repeat split; try assumption.
  - apply stratum_join_eqb_eq. exact Hkey.
  - apply Qle_bool_iff. exact Hcap.
Qed.

Lemma task_stratum_eqb_eq : forall k1 k2,
    task_stratum_eqb k1 k2 = true <-> k1 = k2.
Proof.
  intros [p1 s1] [p2 s2]. unfold task_stratum_eqb. simpl.
  rewrite andb_true_iff, String.eqb_eq, stratum_eqb_eq.
  split; [intros [-> ->]; reflexivity|].
  intro H. inversion H. auto.
Qed.

Lemma In_treatment_stats : forall lf t,
    In t (treatment_stats lf) ->
    (10 <= treated_count t)%Z
    /\ exists g,
        t = treatment_agg ((treated_problem t, treated_bins t), g)
        /\ g <> []
        /\ forall o, In o g <->
                     In o lf /\ task_stratum_of o
                                = (treated_problem t, treated_bins t).
Proof.
  intros lf t H. unfold treatment_stats in H.
  apply filter_In in H. destruct H as [H Hc].
  apply Z.leb_le in Hc. split; [exact Hc|].
  apply in_map_iff in H. destruct H as [[k g] [Ht H]].
  apply (In_group_by _ task_stratum_eqb_eq) in H.
  destruct H as [Hg [o [Ho Hk]]]. subst t. simpl.
  exists g. destruct k as [p s]. simpl. split; [reflexivity|].
  assert (Hmem : forall o', In o' g <-> In o' lf /\ task_stratum_of o' = (p, s)).
  { intro o'. subst g.
    apply (In_group_member _ task_stratum_eqb_eq). }
  split; [|exact Hmem].
  intro Hnil. assert (Hin : In o g) by (apply Hmem; auto).
  rewrite Hnil in Hin. destruct Hin.
Qed.

Lemma In_baseline_stats : forall ms lf b,
    In b (baseline_stats ms lf) ->
    exists g,
      b = baseline_agg (baseline_bins b, g)
      /\ g <> []
      /\ forall o, In o g <->
                   In o lf /\ stratum_of (ev o) = baseline_bins b.
Proof.
  intros ms lf b H. unfold baseline_stats in H.
  apply filter_In in H. destruct H as [H _].
  apply in_map_iff in H. destruct H as [[k g] [Hb H]].
  apply (In_group_by _ stratum_eqb_eq) in H.
  destruct H as [Hg [o [Ho Hk]]]. subst b. simpl.
  exists g. split; [reflexivity|].
  assert (Hmem : forall o', In o' g <-> In o' lf /\ stratum_of (ev o') = k).
  { intro o'. subst g.
    apply (In_group_member _ stratum_eqb_eq (fun o => stratum_of (ev o))). }
  split; [|exact Hmem].
  intro Hnil. assert (Hin : In o g) by (apply Hmem; auto).
  rewrite Hnil in Hin. destruct Hin.
Qed.

(** Every row of the engine's [effect_df] has at least 10 treated
    events, and so has every task total. *)
Lemma effect_rows_count : forall ms lf j,
    In j (effect_rows ms (treatment_stats lf) (baseline_stats ms lf)) ->
    (10 <= j_count j)%Z.
Proof.
  intros ms lf j H. apply In_effect_rows in H.
  destruct H as [Ht _]. apply In_treatment_stats in Ht. apply Ht.
Qed.

Lemma task_total_lower_bound : forall rows j,
    (forall j', In j' rows -> (10 <= j_count j')%Z) ->
    In j rows -> (10 <= task_total rows (j_problem j))%Z.
Proof.
  intros rows j Hall Hin. unfold task_total.
  apply Zsum_lower_bound; [lia| |].
  - intro Hnil.
    assert (In j (filter (fun j' => String.eqb (j_problem j') (j_problem j)) rows)).
    { apply filter_In. split; [exact Hin|apply String.eqb_refl]. }
    rewrite Hnil in H. destruct H.
  - intros a Ha. apply filter_In in Ha. apply Hall, Ha.
Qed.

Lemma In_final_effects : forall effect_df pe,
    In pe (final_effects_of effect_df) ->
    pe = att_agg
           (pe_problem pe,
            filter (fun r => String.eqb (problem r) (pe_problem pe)) effect_df)
    /\ exists r, In r effect_df /\ problem r = pe_problem pe.
Proof.
  intros effect_df pe H. unfold final_effects_of in H.
  apply in_map_iff in H. destruct H as [[p g] [Hpe H]].
  apply (In_group_by _ String.eqb_eq) in H.
  destruct H as [Hg Hex]. subst pe g. simpl. split; [reflexivity|exact Hex].
Qed.

Lemma final_effects_problems : forall effect_df,
    map pe_problem (final_effects_of effect_df)
    = Polars.distinct String.eqb (map problem effect_df).
Proof.
  intro effect_df. unfold final_effects_of, Polars.group_by.
  rewrite !map_map. simpl. apply map_id.
Qed.

Lemma In_significant_effects : forall final s,
    In s (significant_effects final) <->
    (exists pe, In pe final /\ s = test_of pe) /\ is_significant s = true.
Proof.
  intros final s. unfold significant_effects.
  rewrite In_sort, filter_In, in_map_iff.
  split; intros [[pe [H1 H2]] H3]; (split; [exists pe; auto|exact H3]).
Qed.
End EngineFacts.

(** ** Cap, absence, weights *)

Section EngineInvariants.
Import CausalEngine.
Context {N : Numerics}.

Lemma effect_df_cap : forall ms ts bs r,
    In r (effect_df_of_stats ms ts bs) -> Qabs (uplift r) <= 300.
Proof.
  intros ms ts bs r H. unfold effect_df_of_stats in H.
  rewrite with_weights_map in H. apply in_map_iff in H.
  destruct H as [j [Hr Hj]]. subst r. simpl.
  apply In_effect_rows in Hj. apply Hj.
Qed.

(** The rows of a task in [effect_df], their weights written with the
    task's total. *)
Lemma task_group_weights : forall rows p,
    map weight
      (filter (fun r => String.eqb (problem r) p) (with_weights rows))
    = map (fun j => inject_Z (j_count j) / inject_Z (task_total rows p))
        (filter (fun j => String.eqb (j_problem j) p) rows).
Proof.
  intros rows p. rewrite task_group, map_map.
  apply map_ext_in. intros j Hj. apply filter_In in Hj.
  destruct Hj as [_ Hp]. apply String.eqb_eq in Hp. simpl.
  rewrite Hp. reflexivity.
Qed.

Lemma task_group_counts : forall rows p,
    Polars.Zsum
      (map effect_treated_count
         (filter (fun r => String.eqb (problem r) p) (with_weights rows)))
    = task_total rows p.
Proof.
  intros rows p. rewrite task_group, map_map. reflexivity.
Qed.

Lemma task_weights_sum : forall rows p,
    task_total rows p <> 0%Z ->
    Polars.Qsum
      (map weight
         (filter (fun r => String.eqb (problem r) p) (with_weights rows)))
    == 1.
Proof.
  intros rows p Hne. rewrite task_group_weights.
  unfold Qdiv.
  rewrite (Qsum_scale (fun j => inject_Z (j_count j))).
  rewrite Qsum_inject_Z. fold (task_total rows p).
  field. intro H0. apply Hne.
  unfold Qeq in H0. simpl in H0. lia.
Qed.
End EngineInvariants.

(** The engine's tables are not empty in general: with [min_samples] at
    10 the panel [panel_rejected] yields one effect row and one task. *)
Example engine_tables_inhabited :
  forall N : Numerics,
    map (fun r => (CausalEngine.problem r, CausalEngine.effect_treated_count r,
                   Qred (CausalEngine.weight r), Qred (CausalEngine.uplift r)))
      (fst (CausalEngine.compute_causal_effects 10 Scenario.panel_rejected))
    = [("P"%string, 10%Z, 1, 0)]
    /\ map CausalEngine.pe_problem
         (snd (CausalEngine.compute_causal_effects 10 Scenario.panel_rejected))
       = ["P"%string].
Proof.
  intro N. split; vm_compute; reflexivity.
Qed.

(** C7: every row of the per-(task, stratum) effect table, as the engine
    returns it and as [run_pipeline] persists it, has an uplift of
    magnitude at most the sanity cap of 300 rating points. *)
Theorem C7_uplift_within_cap :
  forall (N : Numerics) (min_samples : Z) (panel : list Event),
    Forall (fun r => Qabs (CausalEngine.uplift r) <= Config.MAX_ALLOWED_UPLIFT)
      (fst (CausalEngine.compute_causal_effects min_samples panel))
    /\ Forall
         (fun r => Qabs (CausalEngine.uplift r) <= Config.MAX_ALLOWED_UPLIFT)
         (snd (CausalEngine.run_pipeline panel)).
Proof.
  intros N ms panel. split.
  - apply Forall_forall. intros r Hr. simpl in Hr.
    apply effect_df_cap in Hr. exact Hr.
  - apply Forall_forall. intros r Hr. unfold CausalEngine.run_pipeline in Hr.
    simpl in Hr. apply filter_In in Hr. destruct Hr as [Hr _].
    apply effect_df_cap in Hr. exact Hr.
Qed.

(** C6: a task with no row left after the join, the count filter and the
    cap filter has no row in the per-task table, neither before nor after
    the significance filter. *)
Theorem C6_task_without_stratum_absent :
  forall (N : Numerics) (min_samples : Z) (panel : list Event) (p : string),
    (forall j,
        In j (CausalEngine.effect_rows min_samples
                (CausalEngine.treatment_stats (CausalEngine.outcomes panel))
                (CausalEngine.baseline_stats min_samples
                   (CausalEngine.outcomes panel))) ->
        CausalEngine.j_problem j <> p) ->
    ~ In p (map CausalEngine.pe_problem
              (snd (CausalEngine.compute_causal_effects min_samples panel)))
    /\ ~ In p (map (fun s => CausalEngine.pe_problem (CausalEngine.effect s))
                 (CausalEngine.significant_effects
                    (snd (CausalEngine.compute_causal_effects
                            min_samples panel)))).
Proof.
  intros N ms panel p Hnone.
  assert (Hfinal : ~ In p (map CausalEngine.pe_problem
                             (snd (CausalEngine.compute_causal_effects ms panel)))).
  { simpl. rewrite final_effects_problems.
    rewrite (In_distinct _ String.eqb_eq). intro Hin.
    apply in_map_iff in Hin. destruct Hin as [r [Hp Hr]].
    unfold CausalEngine.effect_df_of_stats in Hr.
    rewrite with_weights_map in Hr. apply in_map_iff in Hr.
    destruct Hr as [j [Hj Hin]]. subst r. simpl in Hp.
    exact (Hnone j Hin Hp). }
  split; [exact Hfinal|].
  intro Hin. apply Hfinal. apply in_map_iff in Hin.
  destruct Hin as [s [Hp Hs]]. apply In_significant_effects in Hs.
  destruct Hs as [[pe [Hpe Hs]] _]. subst s. simpl in Hp.
  apply in_map_iff. exists pe. split; assumption.
Qed.

Lemma C6_witness_rejected_panel :
  ~ In "P"%string
      (map CausalEngine.pe_problem
         (snd (CausalEngine.compute_causal_effects (N := Approx.numerics)
                 50 Scenario.panel_rejected)))
  /\ ~ In "P"%string
       (map (fun s => CausalEngine.pe_problem (CausalEngine.effect s))
          (CausalEngine.significant_effects (N := Approx.numerics)
             (snd (CausalEngine.compute_causal_effects (N := Approx.numerics)
                     50 Scenario.panel_rejected)))).
Proof.
  apply (C6_task_without_stratum_absent Approx.numerics 50
           Scenario.panel_rejected "P"%string).
  intros j Hj. vm_compute in Hj. destruct Hj.
Defined.

(** C5: for every task of the per-task table, the weights of its rows in
    [effect_df] are [treated_count / total_treated_samples], the total is
    the sum of the treated counts of these rows, and the weights sum
    to 1. *)
Theorem C5_weights_sum_to_one :
  forall (N : Numerics) (min_samples : Z) (panel : list Event),
    let effect_df := fst (CausalEngine.compute_causal_effects min_samples panel) in
    let final_effects :=
      snd (CausalEngine.compute_causal_effects min_samples panel) in
    Forall
      (fun pe =>
         let strata :=
           filter (fun r => String.eqb (CausalEngine.problem r)
                              (CausalEngine.pe_problem pe)) effect_df in
         strata <> []
         /\ Forall
              (fun r =>
                 CausalEngine.weight r
                 = inject_Z (CausalEngine.effect_treated_count r)
                   / inject_Z (CausalEngine.total_treated_samples r)
                 /\ CausalEngine.total_treated_samples r
                    = Polars.Zsum
                        (map CausalEngine.effect_treated_count strata))
              strata
         /\ Polars.Qsum (map CausalEngine.weight strata) == 1)
      final_effects.
Proof.
  intros N ms panel effect_df final_effects.
  apply Forall_forall. intros pe Hpe.
  unfold final_effects in Hpe. simpl in Hpe.
  apply In_final_effects in Hpe. destruct Hpe as [_ [r0 [Hr0 Hp0]]].
  set (p := CausalEngine.pe_problem pe) in *.
  unfold effect_df. simpl fst.
  unfold CausalEngine.effect_df_of_stats in *.
  set (rows := CausalEngine.effect_rows ms _ _) in *.
  cbv zeta.
  split; [|split].
  - intro Hnil.
    assert (Hin : In r0 (filter (fun r => String.eqb (CausalEngine.problem r) p)
                           (CausalEngine.with_weights rows))).
    { apply filter_In. split; [exact Hr0|]. apply String.eqb_eq. exact Hp0. }
    rewrite Hnil in Hin. destruct Hin.
  - apply Forall_forall. intros r Hr.
    rewrite task_group_counts.
    rewrite task_group in Hr. apply in_map_iff in Hr.
    destruct Hr as [j [Hr Hj]]. subst r. simpl.
    apply filter_In in Hj. destruct Hj as [_ Hj].
    apply String.eqb_eq in Hj. rewrite Hj. split; reflexivity.
  - apply task_weights_sum.
    rewrite with_weights_map in Hr0. apply in_map_iff in Hr0.
    destruct Hr0 as [j [Hj Hin]]. subst r0. simpl in Hp0.
    assert (Hb : (10 <= CausalEngine.task_total rows (CausalEngine.j_problem j))%Z).
    { apply task_total_lower_bound; [|exact Hin].
      intros j' Hj'. unfold rows in Hj'.
      apply effect_rows_count in Hj'. exact Hj'. }
    unfold CausalEngine.problem in Hp0. simpl in Hp0.
    change (CausalEngine.treated_problem (CausalEngine.j_treated j))
      with (CausalEngine.j_problem j) in Hp0.
    rewrite Hp0 in Hb. lia.
Qed.

(** C10: for every task of the per-task table, the count-weighted
    probability aggregate equals the sum of [weight * probability_uplift]
    over the task's rows of [effect_df]. *)
Theorem C10_probability_uplift_weighting :
  forall (N : Numerics) (min_samples : Z) (panel : list Event),
    let effect_df := fst (CausalEngine.compute_causal_effects min_samples panel) in
    let final_effects :=
      snd (CausalEngine.compute_causal_effects min_samples panel) in
    Forall
      (fun pe =>
         let strata :=
           filter (fun r => String.eqb (CausalEngine.problem r)
                              (CausalEngine.pe_problem pe)) effect_df in
         CausalEngine.att_probability_uplift pe
         == Polars.Qsum
              (map (fun r => CausalEngine.weight r
                             * CausalEngine.probability_uplift r) strata))
      final_effects.
Proof.
  intros N ms panel effect_df final_effects.
  apply Forall_forall. intros pe Hpe.
  unfold final_effects in Hpe. simpl in Hpe.
  apply In_final_effects in Hpe. destruct Hpe as [Hpe _].
  set (p := CausalEngine.pe_problem pe) in *.
  cbv zeta. rewrite Hpe at 1. unfold CausalEngine.att_agg. simpl.
  unfold effect_df. simpl fst.
  unfold CausalEngine.effect_df_of_stats.
  set (rows := CausalEngine.effect_rows ms _ _).
  rewrite task_group_counts, task_group, !map_map.
  set (js := filter _ rows).
  assert (Hjs : forall j, In j js -> CausalEngine.j_problem j = p).
  { intros j Hj. unfold js in Hj. apply filter_In in Hj.
    apply String.eqb_eq. apply Hj. }
  unfold Qdiv. rewrite <- Qsum_scale. apply Qsum_ext.
  intros j Hj. simpl. rewrite (Hjs j Hj). unfold Qdiv.
  change (CausalEngine.effect_treated_count (CausalEngine.record_of rows j))
    with (CausalEngine.j_count j).
  ring.
Qed.

(** ** The executable numerical primitives *)

#[local] Instance sqrt_up_Proper : Proper (Qeq ==> eq) Approx.sqrt_up.
Proof.
  intros x y Hxy. unfold Approx.sqrt_up.
  assert (Hb : Qeq_bool x 0 = Qeq_bool y 0).
  { destruct (Qeq_bool x 0) eqn:Ex, (Qeq_bool y 0) eqn:Ey; try reflexivity.
    - apply Qeq_bool_iff in Ex. rewrite Hxy in Ex.
      apply Qeq_bool_iff in Ex. congruence.
    - apply Qeq_bool_iff in Ey. rewrite <- Hxy in Ey.
      apply Qeq_bool_iff in Ey. congruence. }
  rewrite Hb. destruct (Qeq_bool y 0); [reflexivity|].
  assert (Hf : Qfloor (x * inject_Z (Approx.scale * Approx.scale))
               = Qfloor (y * inject_Z (Approx.scale * Approx.scale))).
  { apply Qfloor_comp. rewrite Hxy. reflexivity. }
  rewrite Hf. reflexivity.
Qed.

Ltac Qle_bool_cases :=
  repeat match goal with
    | |- context [Qle_bool ?a ?b] =>
        let E := fresh "E" in
        destruct (Qle_bool a b) eqn:E;
        [ apply Qle_bool_iff in E
        | assert (~ a <= b)
            by (let H := fresh in
                intro H; apply Qle_bool_iff in H; congruence);
          clear E ]
    end.

Lemma cdf_steps_monotone : forall x y,
    x <= y -> Approx.cdf_steps x <= Approx.cdf_steps y.
Proof.
  intros x y Hxy. unfold Approx.cdf_steps.
  Qle_bool_cases; lra.
Qed.

Lemma cdf_steps_le_1 : forall x, Approx.cdf_steps x <= 1.
Proof.
  intro x. unfold Approx.cdf_steps. Qle_bool_cases; lra.
Qed.

(** ** The significance test of one task *)

Section SignificanceFacts.
Import CausalEngine.
Context {N : Numerics}.

Lemma test_of_positive_variance : forall pe,
    0 < att_variance pe -> 0 < sqrt_pos (att_variance pe) ->
    test_of pe
    = {| effect := pe;
         att_std_err := Fin (sqrt_pos (att_variance pe));
         z_score := Fin (att_score pe / sqrt_pos (att_variance pe));
         p_value :=
           Fin (2 * (1 + - norm_cdf_fin
                             (Qabs (att_score pe
                                    / sqrt_pos (att_variance pe))))) |}.
Proof.
  intros pe Hv Hs. unfold test_of, fsqrt.
  assert (E1 : Qeq_bool (att_variance pe) 0 = false).
  { destruct (Qeq_bool (att_variance pe) 0) eqn:E; [|reflexivity].
    apply Qeq_bool_iff in E. lra. }
  assert (E2 : Qle_bool 0 (att_variance pe) = true)
    by (apply Qle_bool_iff; lra).
  rewrite E1, E2. unfold fdiv.
  assert (E3 : Qeq_bool (sqrt_pos (att_variance pe)) 0 = false).
  { destruct (Qeq_bool (sqrt_pos (att_variance pe)) 0) eqn:E; [|reflexivity].
    apply Qeq_bool_iff in E. lra. }
  rewrite E3. reflexivity.
Qed.

Lemma test_of_zero_variance : forall pe,
    att_variance pe == 0 -> att_score pe == 0 ->
    test_of pe
    = {| effect := pe; att_std_err := Fin 0; z_score := NaN; p_value := NaN |}.
Proof.
  intros pe Hv Ha. unfold test_of, fsqrt.
  assert (E1 : Qeq_bool (att_variance pe) 0 = true)
    by (apply Qeq_bool_iff; exact Hv).
  rewrite E1. unfold fdiv. change (Qeq_bool 0 0) with true. cbv iota.
  assert (E2 : Qsign_pos (att_score pe) = false).
  { unfold Qsign_pos. apply negb_false_iff. apply Qle_bool_iff. lra. }
  assert (E3 : Qsign_neg (att_score pe) = false).
  { unfold Qsign_neg. apply negb_false_iff. apply Qle_bool_iff. lra. }
  rewrite E2, E3. reflexivity.
Qed.

(** The tester itself has no guard on a zero standard error: a positive
    effect over a zero variance gets an infinite z-score and the p-value
    0, which passes the filter. *)
Lemma test_of_zero_variance_positive_effect : forall pe,
    att_variance pe == 0 -> 0 < att_score pe ->
    z_score (test_of pe) = PInf /\ is_significant (test_of pe) = true.
Proof.
  intros pe Hv Ha. unfold is_significant, test_of, fsqrt.
  assert (E1 : Qeq_bool (att_variance pe) 0 = true)
    by (apply Qeq_bool_iff; exact Hv).
  rewrite E1. unfold fdiv. change (Qeq_bool 0 0) with true. cbv iota.
  assert (E2 : Qsign_pos (att_score pe) = true).
  { unfold Qsign_pos. apply negb_true_iff.
    destruct (Qle_bool (att_score pe) 0) eqn:E; [|reflexivity].
    apply Qle_bool_iff in E. lra. }
  rewrite E2. split; reflexivity.
Qed.
End SignificanceFacts.

(** C1: the worked scenario.  From the statistics of the strata A and B
    of task P the engine computes the weights 2/3 and 1/3, the uplifts 40
    and 20, the bucket variances 18.5 and 22.05, ATT = 100/3 and
    Var(ATT) = 1921/180 (10.67...).  With a square root accurate to 1e-6
    there and a normal CDF that is monotone, at most 1 and at least
    1 - 1e-9 at 6, the standard error lies in (3.26, 3.27), z in
    (10.2, 10.21), p in [0, 2e-9], and P is retained. *)
Theorem C1_worked_scenario :
  forall (N : Numerics) (pA pB qA qB : Q),
    (forall v, v == 1921 # 180 ->
               0 < sqrt_pos v
               /\ Qabs (sqrt_pos v * sqrt_pos v - v) <= 1 # 1000000) ->
    (forall x y, x <= y -> norm_cdf_fin x <= norm_cdf_fin y) ->
    (forall x, norm_cdf_fin x <= 1) ->
    1 - (1 # 1000000000) <= norm_cdf_fin 6 ->
    let effect_df :=
      CausalEngine.effect_df_of_stats 50
        (Scenario.treatment pA pB) (Scenario.baseline qA qB) in
    let final_effects := CausalEngine.final_effects_of effect_df in
    let significant := CausalEngine.significant_effects final_effects in
    map CausalEngine.bins effect_df
    = [Scenario.stratum_A; Scenario.stratum_B]
    /\ Forall2 Qeq (map CausalEngine.weight effect_df) [2 # 3; 1 # 3]
    /\ Forall2 Qeq (map CausalEngine.uplift effect_df) [40; 20]
    /\ Forall2 Qeq (map CausalEngine.bucket_variance effect_df)
         [37 # 2; 441 # 20]
    /\ map CausalEngine.pe_problem final_effects = ["P"%string]
    /\ Forall2 Qeq (map CausalEngine.att_score final_effects) [100 # 3]
    /\ Forall2 Qeq (map CausalEngine.att_variance final_effects) [1921 # 180]
    /\ map CausalEngine.effect significant = final_effects
    /\ Forall
         (fun s =>
            exists std_err z p,
              CausalEngine.att_std_err s = Fin std_err
              /\ 326 # 100 < std_err /\ std_err < 327 # 100
              /\ CausalEngine.z_score s = Fin z
              /\ 102 # 10 < z /\ z < 1021 # 100
              /\ CausalEngine.p_value s = Fin p
              /\ 0 <= p /\ p <= 2 # 1000000000
              /\ p < Config.P_VALUE_THRESHOLD)
         significant.
Proof.
  intros N pA pB qA qB Hsqrt Hmono Hle1 H6 effect_df final_effects significant.
  assert (Hfe : exists pe,
             final_effects = [pe]
             /\ CausalEngine.att_score pe == 100 # 3
             /\ CausalEngine.att_variance pe == 1921 # 180).
  { eexists. split; [vm_compute; reflexivity|].
    split; vm_compute; reflexivity. }
  destruct Hfe as [pe [Hfe [Hatt Hvar]]].
  destruct (Hsqrt _ Hvar) as [Hpos Hacc].
  set (se := sqrt_pos (CausalEngine.att_variance pe)) in *.
  apply Qabs_Qle_condition in Hacc. destruct Hacc as [Hlo Hhi].
  rewrite Hvar in Hlo, Hhi.
  assert (Hse_lo : 326 # 100 < se) by nra.
  assert (Hse_hi : se < 327 # 100) by nra.
  set (z := CausalEngine.att_score pe / se).
  assert (Hz_lo : 102 # 10 < z).
  { unfold z. apply Qlt_shift_div_l; [exact Hpos|]. rewrite Hatt. nra. }
  assert (Hz_hi : z < 1021 # 100).
  { unfold z. apply Qlt_shift_div_r; [exact Hpos|]. rewrite Hatt. nra. }
  set (phi := norm_cdf_fin (Qabs z)).
  assert (Hphi_lo : 1 - (1 # 1000000000) <= phi).
  { apply Qle_trans with (norm_cdf_fin 6); [exact H6|].
    apply Hmono. rewrite Qabs_pos by lra. lra. }
  assert (Hphi_hi : phi <= 1) by apply Hle1.
  assert (Htest : CausalEngine.test_of pe
                  = {| CausalEngine.effect := pe;
                       CausalEngine.att_std_err := Fin se;
                       CausalEngine.z_score := Fin z;
                       CausalEngine.p_value := Fin (2 * (1 + - phi)) |}).
  { apply test_of_positive_variance; [rewrite Hvar; lra|exact Hpos]. }
  assert (Hsig : significant = [CausalEngine.test_of pe]).
  { unfold significant, CausalEngine.significant_effects. rewrite Hfe.
    simpl map. unfold filter.
    assert (Hs : CausalEngine.is_significant (CausalEngine.test_of pe) = true).
    { rewrite Htest. unfold CausalEngine.is_significant. simpl.
      apply negb_true_iff.
      destruct (Qle_bool Config.P_VALUE_THRESHOLD (2 * (1 + - phi))) eqn:E;
        [|reflexivity].
      apply Qle_bool_iff in E. unfold Config.P_VALUE_THRESHOLD in E. lra. }
    rewrite Hs. reflexivity. }
  split; [vm_compute; reflexivity|].
  split; [repeat constructor; vm_compute; reflexivity|].
  split; [repeat constructor; vm_compute; reflexivity|].
  split; [repeat constructor; vm_compute; reflexivity|].
  split; [vm_compute; reflexivity|].
  split; [rewrite Hfe; repeat constructor; exact Hatt|].
  split; [rewrite Hfe; repeat constructor; exact Hvar|].
  split; [rewrite Hsig, Hfe, Htest; reflexivity|].
  rewrite Hsig, Htest. repeat constructor.
  exists se, z, (2 * (1 + - phi)). simpl.
  unfold Config.P_VALUE_THRESHOLD.
  repeat split; try assumption; try reflexivity; lra.
Qed.

Lemma C1_witness_executable_numerics :
  let N := Approx.numerics in
  let significant :=
    CausalEngine.significant_effects
      (CausalEngine.final_effects_of
         (CausalEngine.effect_df_of_stats 50
            (Scenario.treatment (7 # 10) (6 # 10))
            (Scenario.baseline (1 # 2) (1 # 2)))) in
  map (fun s => CausalEngine.pe_problem (CausalEngine.effect s)) significant
  = ["P"%string]
  /\ Forall
       (fun s =>
          exists std_err z p,
            CausalEngine.att_std_err s = Fin std_err
            /\ 326 # 100 < std_err /\ std_err < 327 # 100
            /\ CausalEngine.z_score s = Fin z
            /\ 102 # 10 < z /\ z < 1021 # 100
            /\ CausalEngine.p_value s = Fin p
            /\ 0 <= p /\ p <= 2 # 1000000000
            /\ p < Config.P_VALUE_THRESHOLD)
       significant.
Proof.
  intros N significant.
  destruct (C1_worked_scenario Approx.numerics (7 # 10) (6 # 10) (1 # 2) (1 # 2))
    as (_ & _ & _ & _ & Hp & _ & _ & Hs & Hall).
  - intros v Hv. simpl sqrt_pos.
    rewrite (sqrt_up_Proper v (1921 # 180) Hv). rewrite Hv.
    split; vm_compute; reflexivity || (intro; discriminate).
  - exact cdf_steps_monotone.
  - exact cdf_steps_le_1.
  - vm_compute. intro; discriminate.
  - split; [|exact Hall].
    cbv zeta in Hs, Hp.
    assert (Hmm : map (fun s => CausalEngine.pe_problem (CausalEngine.effect s))
                    significant
                  = map CausalEngine.pe_problem
                      (map CausalEngine.effect significant))
      by (symmetry; apply map_map).
    rewrite Hmm. unfold significant, N. rewrite Hs. exact Hp.
Defined.

(** ** Zero variance *)

Lemma Qsum_all_zero {A} (f : A -> Q) (l : list A) :
  (forall a, In a l -> f a == 0) -> Polars.Qsum (map f l) == 0.
Proof.
  induction l as [|a l IH]; intro H; simpl; [reflexivity|].
  rewrite (H a (or_introl eq_refl)), IH; [ring|].
  intros b Hb. apply H. right. exact Hb.
Qed.

Lemma Qsq_nonneg : forall x : Q, 0 <= x ^ 2.
Proof. intro x. simpl. nra. Qed.

Lemma Qdiv_nonneg : forall a b : Q, 0 <= a -> 0 <= b -> 0 <= a / b.
Proof.
  intros a b Ha Hb. unfold Qdiv.
  apply Qmult_le_0_compat; [exact Ha|]. apply Qinv_le_0_compat. exact Hb.
Qed.

Lemma Qsq_div_zero : forall x c : Q, 0 < c -> x ^ 2 / c == 0 -> x == 0.
Proof.
  intros x c Hc H.
  assert (Hx : x ^ 2 == 0).
  { setoid_replace (x ^ 2) with (x ^ 2 / c * c) by (field; lra).
    rewrite H. ring. }
  simpl in Hx. nra.
Qed.

Lemma inject_Z_pos : forall z : Z, (0 < z)%Z -> 0 < inject_Z z.
Proof. intros z Hz. unfold Qlt. simpl. lia. Qed.

Lemma inject_Z_nonneg : forall z : Z, (0 <= z)%Z -> 0 <= inject_Z z.
Proof. intros z Hz. unfold Qle. simpl. lia. Qed.

Lemma count_pos {A} (l : list A) : l <> [] -> (0 < Polars.count l)%Z.
Proof.
  intro H. destruct l; [congruence|]. unfold Polars.count. simpl. lia.
Qed.

Section ZeroVariance.
Import CausalEngine.
Context {N : Numerics}.
Hypothesis std_law : std_zero_only_on_constant N.

(** In a joined row whose baseline standard deviation is zero the treated
    mean equals the baseline mean: the treated events of the stratum are
    among its baseline events. *)
Lemma zero_baseline_std_zero_uplift : forall ms lf j,
    In j (effect_rows ms (treatment_stats lf) (baseline_stats ms lf)) ->
    baseline_std (j_baseline j) == 0 ->
    uplift_of j == 0.
Proof.
  intros ms lf j Hj Hstd0. apply In_effect_rows in Hj.
  destruct Hj as [Ht [Hb [Hkey _]]].
  apply In_treatment_stats in Ht. destruct Ht as [_ [gt [Hteq [Hgt Hmt]]]].
  apply In_baseline_stats in Hb. destruct Hb as [gb [Hbeq [Hgb Hmb]]].
  set (t := j_treated j) in *. set (b := j_baseline j) in *.
  assert (Hbstd : baseline_std b = std_sample (gains gb))
    by (rewrite Hbeq; reflexivity).
  assert (Hbgain : baseline_gain b = Polars.mean (gains gb))
    by (rewrite Hbeq; reflexivity).
  assert (Htgain : treated_gain t = Polars.mean (gains gt))
    by (rewrite Hteq; reflexivity).
  rewrite Hbstd in Hstd0.
  pose proof (std_law _ Hstd0) as Hconst.
  assert (Hsub : forall o, In o gt -> In o gb).
  { intros o Ho. apply Hmt in Ho. destruct Ho as [Hin Hk].
    apply Hmb. split; [exact Hin|].
    unfold task_stratum_of in Hk. injection Hk as _ Hs.
    rewrite Hs. exact Hkey. }
  destruct gt as [|o0 gt']; [congruence|].
  set (gt := o0 :: gt') in *.
  set (c := rating_gain_20 o0).
  assert (Hc : In c (gains gb)).
  { unfold gains. apply in_map. apply Hsub. left. reflexivity. }
  assert (Hmean_b : Polars.mean (gains gb) == c).
  { apply mean_constant.
    - unfold gains. destruct gb; [congruence|discriminate].
    - intros x Hx. apply Hconst; assumption. }
  assert (Hmean_t : Polars.mean (gains gt) == c).
  { apply mean_constant.
    - unfold gains, gt. discriminate.
    - intros x Hx. apply Hconst; [|exact Hc].
      unfold gains in Hx. apply in_map_iff in Hx.
      destruct Hx as [o [Hx Ho]]. subst x.
      unfold gains. apply in_map. apply Hsub. exact Ho. }
  unfold uplift_of. fold t b. rewrite Htgain, Hbgain, Hmean_b, Hmean_t.
  ring.
Qed.

Lemma bucket_variance_zero_baseline_std : forall ms lf j,
    In j (effect_rows ms (treatment_stats lf) (baseline_stats ms lf)) ->
    bucket_variance_of j == 0 ->
    baseline_std (j_baseline j) == 0.
Proof.
  intros ms lf j Hj Hbv. pose proof (effect_rows_count ms lf j Hj) as Hcnt.
  apply In_effect_rows in Hj. destruct Hj as [_ [Hb _]].
  apply In_baseline_stats in Hb. destruct Hb as [gb [Hbeq [Hgb _]]].
  assert (Hbc : (0 < baseline_count (j_baseline j))%Z).
  { rewrite Hbeq. simpl. apply count_pos. unfold gains.
    destruct gb; [congruence|discriminate]. }
  unfold bucket_variance_of in Hbv. unfold j_count in Hcnt.
  assert (H1 : 0 <= treated_std (j_treated j) ^ 2
                    / inject_Z (treated_count (j_treated j))).
  { apply Qdiv_nonneg; [apply Qsq_nonneg|apply inject_Z_nonneg; lia]. }
  assert (H2 : 0 <= baseline_std (j_baseline j) ^ 2
                    / inject_Z (baseline_count (j_baseline j))).
  { apply Qdiv_nonneg; [apply Qsq_nonneg|apply inject_Z_nonneg; lia]. }
  apply Qsq_div_zero with (c := inject_Z (baseline_count (j_baseline j))).
  - apply inject_Z_pos. exact Hbc.
  - lra.
Qed.

Lemma bucket_variance_nonneg : forall ms lf j,
    In j (effect_rows ms (treatment_stats lf) (baseline_stats ms lf)) ->
    0 <= bucket_variance_of j.
Proof.
  intros ms lf j Hj. pose proof (effect_rows_count ms lf j Hj) as Hcnt.
  apply In_effect_rows in Hj. destruct Hj as [_ [Hb _]].
  apply In_baseline_stats in Hb. destruct Hb as [gb [Hbeq _]].
  assert (Hbc : (0 <= baseline_count (j_baseline j))%Z).
  { rewrite Hbeq. simpl. unfold Polars.count. lia. }
  unfold bucket_variance_of, j_count in *.
  assert (H1 : 0 <= treated_std (j_treated j) ^ 2
                    / inject_Z (treated_count (j_treated j))).
  { apply Qdiv_nonneg; [apply Qsq_nonneg|apply inject_Z_nonneg; lia]. }
  assert (H2 : 0 <= baseline_std (j_baseline j) ^ 2
                    / inject_Z (baseline_count (j_baseline j))).
  { apply Qdiv_nonneg; [apply Qsq_nonneg|apply inject_Z_nonneg; lia]. }
  lra.
Qed.

Lemma weight_positive : forall rows j,
    (forall j', In j' rows -> (10 <= j_count j')%Z) ->
    In j rows -> 0 < weight (record_of rows j).
Proof.
  intros rows j Hall Hin. simpl.
  pose proof (task_total_lower_bound rows j Hall Hin) as Ht.
  pose proof (Hall j Hin) as Hc.
  apply Qlt_shift_div_l.
  - apply inject_Z_pos. lia.
  - rewrite Qmult_0_l. apply inject_Z_pos. lia.
Qed.

(** In the exact arithmetic of the model, where the mean of equal gains
    is that gain, a task of the per-task table with zero aggregate
    variance has a zero effect.  The Float64 means of the code do not
    have that property ([Samples.flat_treatment]). *)
Lemma zero_variance_zero_effect : forall ms panel pe,
    In pe (snd (compute_causal_effects ms panel)) ->
    att_variance pe == 0 -> att_score pe == 0.
Proof.
  intros ms panel pe Hpe Hvar. simpl in Hpe.
  apply In_final_effects in Hpe. destruct Hpe as [Hpe _].
  set (p := pe_problem pe) in *.
  unfold effect_df_of_stats in Hpe.
  set (lf := outcomes panel) in *.
  set (rows := effect_rows ms (treatment_stats lf) (baseline_stats ms lf)) in *.
  rewrite task_group in Hpe.
  set (js := filter (fun j => String.eqb (j_problem j) p) rows) in *.
  assert (Hjs : forall j, In j js -> In j rows).
  { intros j Hj. unfold js in Hj. apply filter_In in Hj. apply Hj. }
  assert (Hcount : forall j', In j' rows -> (10 <= j_count j')%Z).
  { intros j' Hj'. apply (effect_rows_count ms lf). exact Hj'. }
  rewrite Hpe in Hvar. unfold att_agg in Hvar. simpl in Hvar.
  rewrite map_map in Hvar.
  assert (Hterms : Forall (fun x => x == 0)
                     (map (fun j => weight (record_of rows j) ^ 2
                                    * bucket_variance_of j) js)).
  { apply Qsum_zero_terms.
    - apply Forall_forall. intros x Hx. apply in_map_iff in Hx.
      destruct Hx as [j [Hx Hj]]. subst x.
      apply Qmult_le_0_compat; [apply Qsq_nonneg|].
      apply (bucket_variance_nonneg ms lf). apply Hjs. exact Hj.
    - exact Hvar. }
  rewrite Forall_forall in Hterms.
  rewrite Hpe. unfold att_agg. simpl. rewrite map_map.
  apply Qsum_all_zero. intros j Hj. simpl.
  assert (Hbv : bucket_variance_of j == 0).
  { assert (Hw := weight_positive rows j Hcount (Hjs j Hj)).
    assert (Ht : weight (record_of rows j) ^ 2 * bucket_variance_of j == 0).
    { apply Hterms. apply in_map_iff. exists j. split; [reflexivity|exact Hj]. }
    assert (Hb := bucket_variance_nonneg ms lf j (Hjs j Hj)).
    simpl in Hw, Ht. simpl.
    set (w := inject_Z (j_count j) / inject_Z (task_total rows (j_problem j))) in *.
    set (bv := bucket_variance_of j) in *.
    assert (0 < w * w) by nra.
    nra. }
  assert (Hup : uplift_of j == 0).
  { apply (zero_baseline_std_zero_uplift ms lf); [apply Hjs; exact Hj|].
    apply (bucket_variance_zero_baseline_std ms lf); [apply Hjs; exact Hj|].
    exact Hbv. }
  rewrite Hup. ring.
Qed.
End ZeroVariance.

Lemma sqrt_up_zero : forall v, Approx.sqrt_up v == 0 -> v == 0.
Proof.
  intros v H. unfold Approx.sqrt_up in H.
  destruct (Qeq_bool v 0) eqn:E; [apply Qeq_bool_iff; exact E|].
  exfalso.
  set (n := Qfloor (v * inject_Z (Approx.scale * Approx.scale))) in *.
  pose proof (Z.sqrt_nonneg n) as Hn.
  assert (Hs : 0 < inject_Z Approx.scale) by (vm_compute; reflexivity).
  assert (Hp : 0 < inject_Z (Z.sqrt n + 1)) by (apply inject_Z_pos; lia).
  assert (0 < inject_Z (Z.sqrt n + 1) / inject_Z Approx.scale).
  { apply Qlt_shift_div_l; [exact Hs|]. rewrite Qmult_0_l. exact Hp. }
  lra.
Qed.

Lemma approx_std_law : std_zero_only_on_constant Approx.numerics.
Proof.
  intros l Hstd x y Hx Hy. simpl in Hstd. unfold Approx.std in Hstd.
  apply sqrt_up_zero in Hstd. unfold Approx.sample_variance in Hstd.
  destruct l as [|a [|b l]].
  - destruct Hx.
  - destruct Hx as [<-|[]]. destruct Hy as [<-|[]]. reflexivity.
  - set (m := Polars.mean (a :: b :: l)) in *.
    set (ll := a :: b :: l) in *.
    assert (Hc : 0 < inject_Z (Polars.count ll - 1)).
    { apply inject_Z_pos. unfold Polars.count, ll.
      cbn [List.length]. lia. }
    assert (Hsum : Polars.Qsum (map (fun x => (x - m) ^ 2) ll) == 0).
    { setoid_replace (Polars.Qsum (map (fun x => (x - m) ^ 2) ll))
        with (Polars.Qsum (map (fun x => (x - m) ^ 2) ll)
              / inject_Z (Polars.count ll - 1)
              * inject_Z (Polars.count ll - 1)) by (field; lra).
      rewrite Hstd. ring. }
    assert (Hall : Forall (fun d => d == 0) (map (fun x => (x - m) ^ 2) ll)).
    { apply Qsum_zero_terms; [|exact Hsum].
      apply Forall_forall. intros d Hd. apply in_map_iff in Hd.
      destruct Hd as [z [<- _]]. apply Qsq_nonneg. }
    rewrite Forall_forall in Hall.
    assert (Hm : forall z, In z ll -> z == m).
    { intros z Hz.
      assert (Hz0 : (z - m) ^ 2 == 0).
      { apply Hall. apply in_map_iff. exists z. split; [reflexivity|exact Hz]. }
      simpl in Hz0. nra. }
    rewrite (Hm x Hx), (Hm y Hy). reflexivity.
Qed.

(** C2: the tester has no guard on a zero standard error.  On the
    statistics [Samples.flat_treatment] and [Samples.flat_baseline] the
    single stratum of task P has the bucket variance 0 and the uplift
    2^-47, so the task has the aggregate variance 0, the standard error 0,
    the z-score +inf and the p-value 0, and it is in the significant-task
    output. *)
Theorem C2_zero_variance_task_retained :
  forall N : Numerics,
    let effect_df :=
      CausalEngine.effect_df_of_stats 50
        Samples.flat_treatment Samples.flat_baseline in
    let final_effects := CausalEngine.final_effects_of effect_df in
    let tested := map CausalEngine.test_of final_effects in
    let significant := CausalEngine.significant_effects final_effects in
    map (fun r => (CausalEngine.problem r,
                   Qred (CausalEngine.uplift r),
                   Qred (CausalEngine.bucket_variance r),
                   Qred (CausalEngine.weight r)))
      effect_df
    = [("P"%string, 1 # 140737488355328, 0, 1)]
    /\ map (fun pe => (CausalEngine.pe_problem pe,
                       Qred (CausalEngine.att_score pe),
                       Qred (CausalEngine.att_variance pe)))
         final_effects
       = [("P"%string, 1 # 140737488355328, 0)]
    /\ map CausalEngine.att_std_err tested = [Fin 0]
    /\ map CausalEngine.z_score tested = [PInf]
    /\ map CausalEngine.p_value tested = [Fin 0]
    /\ map CausalEngine.is_significant tested = [true]
    /\ map (fun s => CausalEngine.pe_problem (CausalEngine.effect s))
         significant
       = ["P"%string].
Proof.
  intro N. cbv zeta.
  repeat split; vm_compute; reflexivity.
Qed.

(* ================================================================== *)
(** * Further properties of the engine *)
(* ================================================================== *)

(** ** Sorting *)

Section SortIsSorted.
Context {A : Type}.
Variable le : A -> A -> bool.
Hypothesis le_total : forall x y, le x y = false -> le y x = true.
Hypothesis le_trans :
  forall x y z, le x y = true -> le y z = true -> le x z = true.

Lemma insert_sorted_permutation : forall x l,
    Permutation (x :: l) (Polars.insert_sorted le x l).
Proof.
  intros x l. induction l as [|a l IH]; simpl; [reflexivity|].
  destruct (le x a); [reflexivity|].
  rewrite perm_swap. constructor. exact IH.
Qed.

Lemma sort_permutation : forall l, Permutation l (Polars.sort le l).
Proof.
  induction l as [|a l IH]; simpl; [reflexivity|].
  rewrite <- insert_sorted_permutation. constructor. exact IH.
Qed.

Lemma insert_sorted_keeps_sorted : forall x l,
    StronglySorted (fun a b => le a b = true) l ->
    StronglySorted (fun a b => le a b = true) (Polars.insert_sorted le x l).
Proof.
  intros x l Hs. induction Hs as [|a l Hs IH Hall]; simpl.
  - repeat constructor.
  - destruct (le x a) eqn:E.
    + constructor; [constructor; assumption|].
      constructor; [exact E|].
      rewrite Forall_forall in *. intros b Hb.
      apply le_trans with a; [exact E|apply Hall; exact Hb].
    + constructor; [exact IH|].
      rewrite Forall_forall in *. intros b Hb.
      apply (Permutation_in _ (Permutation_sym (insert_sorted_permutation x l)))
        in Hb.
      destruct Hb as [<-|Hb]; [apply le_total; exact E|apply Hall; exact Hb].
Qed.

Lemma sort_sorted : forall l,
    StronglySorted (fun a b => le a b = true) (Polars.sort le l).
Proof.
  induction l as [|a l IH]; simpl; [constructor|].
  apply insert_sorted_keeps_sorted. exact IH.
Qed.
End SortIsSorted.

Lemma StronglySorted_weaken {A} (R S : A -> A -> Prop) (l : list A) :
  (forall a b, R a b -> S a b) -> StronglySorted R l -> StronglySorted S l.
Proof.
  intros HRS Hs. induction Hs as [|a l Hs IH Hall]; constructor.
  - exact IH.
  - rewrite Forall_forall in *. intros b Hb. apply HRS, Hall, Hb.
Qed.

Lemma Qle_bool_total : forall x y, Qle_bool x y = false -> Qle_bool y x = true.
Proof.
  intros x y H. apply Qle_bool_iff.
  destruct (Qlt_le_dec y x) as [Hlt|Hle]; [apply Qlt_le_weak; exact Hlt|].
  apply Qle_bool_iff in Hle. congruence.
Qed.

Lemma Qle_bool_trans : forall x y z,
    Qle_bool x y = true -> Qle_bool y z = true -> Qle_bool x z = true.
Proof.
  intros x y z H1 H2. apply Qle_bool_iff in H1, H2. apply Qle_bool_iff.
  apply Qle_trans with y; assumption.
Qed.


(** ** Bounds on the aggregates *)

Lemma Qsum_cons : forall x l, Polars.Qsum (x :: l) = x + Polars.Qsum l.
Proof. reflexivity. Qed.

Lemma weighted_sum_bound {A} (w u : A -> Q) (c : Q) (l : list A) :
  (forall a, In a l -> 0 <= w a /\ Qabs (u a) <= c) ->
  Qabs (Polars.Qsum (map (fun a => w a * u a) l))
  <= c * Polars.Qsum (map w l).
Proof.
  induction l as [|a l IH]; intro H.
  - simpl. rewrite Qmult_0_r. apply Qle_refl.
  - destruct (H a (or_introl eq_refl)) as [Hw Hu].
    assert (IH' := IH (fun b Hb => H b (or_intror Hb))).
    rewrite !map_cons, !Qsum_cons.
    eapply Qle_trans; [apply Qabs_triangle|].
    rewrite Qabs_Qmult, (Qabs_pos (w a)) by exact Hw.
    assert (w a * Qabs (u a) <= w a * c).
    { rewrite (Qmult_comm (w a) (Qabs (u a))), (Qmult_comm (w a) c).
      apply Qmult_le_compat_r; assumption. }
    lra.
Qed.

Lemma mean_unit_interval : forall l : list Q,
    l <> [] -> (forall x, In x l -> 0 <= x /\ x <= 1) ->
    0 <= Polars.mean l /\ Polars.mean l <= 1.
Proof.
  intros l Hne H. unfold Polars.mean, Polars.count.
  assert (Hsum : 0 <= Polars.Qsum l
                 /\ Polars.Qsum l <= inject_Z (Z.of_nat (List.length l))).
  { clear Hne. induction l as [|a l IH].
    - simpl. split; apply Qle_refl.
    - destruct (H a (or_introl eq_refl)) as [Ha0 Ha1].
      destruct (IH (fun x Hx => H x (or_intror Hx))) as [I0 I1].
      cbn [Polars.Qsum fold_right List.length].
      change (fold_right Qplus 0 l) with (Polars.Qsum l).
      rewrite Nat2Z.inj_succ. unfold Z.succ. rewrite inject_Z_plus.
      change (inject_Z 1) with 1. split; lra. }
  destruct Hsum as [H0 H1].
  assert (Hn : 0 < inject_Z (Z.of_nat (List.length l))).
  { apply inject_Z_pos. destruct l; [congruence|]. simpl. lia. }
  split.
  - apply Qle_shift_div_l; [exact Hn|]. lra.
  - apply Qle_shift_div_r; [exact Hn|]. lra.
Qed.

Section EngineBounds.
Import CausalEngine.
Context {N : Numerics}.

Lemma In_drop_nulls {A} (l : list (option A)) (x : A) :
  In x (Polars.drop_nulls l) <-> In (Some x) l.
Proof.
  induction l as [|[a|] l IH]; simpl.
  - tauto.
  - rewrite IH. split; intros [H|H]; auto; [left; congruence|].
    left. congruence.
  - rewrite IH. split; [auto|]. intros [H|H]; [discriminate|exact H].
Qed.

(** The improvement indicator of a row of the outcome frame is 0 or 1,
    and 1 exactly when the gain is positive. *)
Lemma outcomes_improved : forall panel o,
    In o (outcomes panel) ->
    (improved_20 o = 1%Z /\ 0 < rating_gain_20 o)
    \/ (improved_20 o = 0%Z /\ rating_gain_20 o <= 0).
Proof.
  intros panel o H. unfold outcomes in H. apply In_drop_nulls in H.
  apply in_map_iff in H. destruct H as [[e [f|]] [Ho _]]; [|discriminate].
  unfold outcome_of in Ho. simpl in Ho. injection Ho as <-. simpl.
  destruct (Qle_bool (f - rating_at_submission e) 0) eqn:E.
  - right. split; [reflexivity|]. apply Qle_bool_iff. exact E.
  - left. split; [reflexivity|].
    destruct (Qlt_le_dec 0 (f - rating_at_submission e)) as [Hlt|Hle];
      [exact Hlt|].
    apply Qle_bool_iff in Hle. congruence.
Qed.

Lemma improveds_unit_interval : forall panel (g : list Outcome),
    (forall o, In o g -> In o (outcomes panel)) ->
    forall x, In x (improveds g) -> 0 <= x /\ x <= 1.
Proof.
  intros panel g Hg x Hx. unfold improveds in Hx. apply in_map_iff in Hx.
  destruct Hx as [o [<- Ho]].
  destruct (outcomes_improved panel o (Hg o Ho)) as [[-> _]|[-> _]];
    split; discriminate.
Qed.

Lemma In_final_effects_group : forall ms panel pe,
    In pe (snd (compute_causal_effects ms panel)) ->
    let rows :=
      effect_rows ms (treatment_stats (outcomes panel))
        (baseline_stats ms (outcomes panel)) in
    let js := filter (fun j => String.eqb (j_problem j) (pe_problem pe)) rows in
    pe = att_agg (pe_problem pe, map (record_of rows) js)
    /\ js <> []
    /\ (forall j, In j js -> In j rows /\ j_problem j = pe_problem pe)
    /\ (10 <= task_total rows (pe_problem pe))%Z.
Proof.
  intros ms panel pe Hpe rows js.
  cbn [compute_causal_effects snd] in Hpe.
  apply In_final_effects in Hpe. destruct Hpe as [Hpe [r [Hr Hp]]].
  unfold effect_df_of_stats in Hpe, Hr. fold rows in Hpe, Hr.
  rewrite task_group in Hpe. fold js in Hpe.
  rewrite with_weights_map in Hr. apply in_map_iff in Hr.
  destruct Hr as [j [Hj Hin]]. subst r.
  change (problem (record_of rows j)) with (j_problem j) in Hp.
  split; [exact Hpe|]. split; [|split].
  - intro Hnil.
    assert (Hjs : In j js).
    { unfold js. apply filter_In. split; [exact Hin|].
      apply String.eqb_eq. exact Hp. }
    rewrite Hnil in Hjs. destruct Hjs.
  - intros j' Hj. unfold js in Hj. apply filter_In in Hj.
    destruct Hj as [Hin' Hp']. apply String.eqb_eq in Hp'. auto.
  - rewrite <- Hp. apply task_total_lower_bound; [|exact Hin].
    intros j' Hj'. apply (effect_rows_count ms (outcomes panel)). exact Hj'.
Qed.

Lemma joined_probabilities : forall ms panel j,
    In j (effect_rows ms (treatment_stats (outcomes panel))
            (baseline_stats ms (outcomes panel))) ->
    (0 <= treated_improve_prob (j_treated j)
     /\ treated_improve_prob (j_treated j) <= 1)
    /\ (0 <= baseline_improve_prob (j_baseline j)
        /\ baseline_improve_prob (j_baseline j) <= 1).
Proof.
  intros ms panel j Hj. apply In_effect_rows in Hj.
  destruct Hj as [Ht [Hb _]].
  apply In_treatment_stats in Ht. destruct Ht as [_ [gt [Hteq [Hgt Hmt]]]].
  apply In_baseline_stats in Hb. destruct Hb as [gb [Hbeq [Hgb Hmb]]].
  split.
  - rewrite Hteq. cbn [treated_improve_prob treatment_agg snd].
    apply mean_unit_interval.
    + unfold improveds. destruct gt; [congruence|discriminate].
    + apply (improveds_unit_interval panel). intros o Ho. apply Hmt, Ho.
  - rewrite Hbeq. cbn [baseline_improve_prob baseline_agg snd].
    apply mean_unit_interval.
    + unfold improveds. destruct gb; [congruence|discriminate].
    + apply (improveds_unit_interval panel). intros o Ho. apply Hmb, Ho.
Qed.
End EngineBounds.

(** Every aggregate variance of the per-task table is non-negative. *)
Theorem att_variance_nonneg :
  forall (N : Numerics) (min_samples : Z) (panel : list Event),
    Forall (fun pe => 0 <= CausalEngine.att_variance pe)
      (snd (CausalEngine.compute_causal_effects min_samples panel)).
Proof.
  intros N ms panel. apply Forall_forall. intros pe Hpe.
  destruct (In_final_effects_group ms panel pe Hpe) as [Heq [_ [Hjs _]]].
  rewrite Heq. cbn [CausalEngine.att_variance CausalEngine.att_agg snd].
  rewrite map_map. apply Qsum_nonneg. apply Forall_forall.
  intros x Hx. apply in_map_iff in Hx. destruct Hx as [j [<- Hj]].
  apply Qmult_le_0_compat; [apply Qsq_nonneg|].
  cbn [CausalEngine.bucket_variance CausalEngine.record_of].
  apply (bucket_variance_nonneg ms (CausalEngine.outcomes panel)).
  apply Hjs, Hj.
Qed.

(** The effect of a task is a weighted average of the uplifts of its
    strata, so the sanity cap of 300 rating points holds for it too. *)
Theorem att_score_within_cap :
  forall (N : Numerics) (min_samples : Z) (panel : list Event),
    Forall
      (fun pe => Qabs (CausalEngine.att_score pe) <= Config.MAX_ALLOWED_UPLIFT)
      (snd (CausalEngine.compute_causal_effects min_samples panel)).
Proof.
  intros N ms panel. apply Forall_forall. intros pe Hpe.
  destruct (In_final_effects_group ms panel pe Hpe) as [Heq [_ [Hjs Htot]]].
  set (rows := CausalEngine.effect_rows ms _ _) in *.
  assert (Hsum := task_weights_sum rows (CausalEngine.pe_problem pe)).
  rewrite task_group in Hsum.
  set (js := filter _ rows) in *.
  rewrite Heq. cbn [CausalEngine.att_score CausalEngine.att_agg snd].
  eapply Qle_trans.
  - apply (weighted_sum_bound CausalEngine.weight CausalEngine.uplift 300).
    intros r Hr. apply in_map_iff in Hr. destruct Hr as [j [<- Hj]].
    destruct (Hjs j Hj) as [Hin _]. split.
    + apply Qlt_le_weak. apply weight_positive; [|exact Hin].
      intros j' Hj'.
      apply (effect_rows_count ms (CausalEngine.outcomes panel)). exact Hj'.
    + cbn [CausalEngine.uplift CausalEngine.record_of].
      apply (In_effect_rows ms _ _ j Hin).
  - rewrite Hsum by lia. unfold Config.MAX_ALLOWED_UPLIFT. lra.
Qed.

(** The aggregate probability uplift of a task is a difference of
    improvement rates averaged over its strata: it lies in [-1, 1]. *)
Theorem att_probability_uplift_bounded :
  forall (N : Numerics) (min_samples : Z) (panel : list Event),
    Forall
      (fun pe => - (1) <= CausalEngine.att_probability_uplift pe
                 /\ CausalEngine.att_probability_uplift pe <= 1)
      (snd (CausalEngine.compute_causal_effects min_samples panel)).
Proof.
  intros N ms panel. apply Forall_forall. intros pe Hpe.
  destruct (In_final_effects_group ms panel pe Hpe) as [Heq [_ [Hjs Htot]]].
  set (rows := CausalEngine.effect_rows ms _ _) in *.
  set (js := filter _ rows) in *.
  rewrite Heq.
  cbn [CausalEngine.att_probability_uplift CausalEngine.att_agg snd].
  rewrite !map_map.
  change (Polars.Zsum
            (map (fun x => CausalEngine.effect_treated_count
                             (CausalEngine.record_of rows x)) js))
    with (CausalEngine.task_total rows (CausalEngine.pe_problem pe)).
  set (T := CausalEngine.task_total rows (CausalEngine.pe_problem pe)) in *.
  assert (HT : 0 < inject_Z T) by (apply inject_Z_pos; lia).
  assert (Hb : Qabs (Polars.Qsum
                       (map (fun j => inject_Z (CausalEngine.j_count j)
                                      * CausalEngine.probability_uplift_of j) js))
               <= 1 * Polars.Qsum
                        (map (fun j => inject_Z (CausalEngine.j_count j)) js)).
  { apply weighted_sum_bound. intros j Hj. destruct (Hjs j Hj) as [Hin _].
    split.
    - apply inject_Z_nonneg.
      pose proof (effect_rows_count ms (CausalEngine.outcomes panel) j Hin).
      lia.
    - destruct (joined_probabilities ms panel j Hin) as [[H1 H2] [H3 H4]].
      unfold CausalEngine.probability_uplift_of.
      apply Qabs_Qle_condition. split; lra. }
  rewrite Qsum_inject_Z in Hb.
  change (Polars.Zsum (map CausalEngine.j_count js)) with T in Hb.
  assert (Hswap : Polars.Qsum
                    (map (fun x => CausalEngine.probability_uplift
                                     (CausalEngine.record_of rows x)
                                   * inject_Z (CausalEngine.effect_treated_count
                                                 (CausalEngine.record_of rows x)))
                       js)
                  == Polars.Qsum
                       (map (fun j => inject_Z (CausalEngine.j_count j)
                                      * CausalEngine.probability_uplift_of j) js)).
  { apply Qsum_ext. intros j _.
    cbn [CausalEngine.probability_uplift CausalEngine.record_of].
    change (CausalEngine.effect_treated_count (CausalEngine.record_of rows j))
      with (CausalEngine.j_count j).
    ring. }
  rewrite Hswap. apply Qabs_Qle_condition in Hb. destruct Hb as [Hlo Hhi].
  split.
  - apply Qle_shift_div_l; [exact HT|]. lra.
  - apply Qle_shift_div_r; [exact HT|]. lra.
Qed.

(** ** Sample counts of the effect rows *)

Lemma length_filter_le {A} (f g : A -> bool) (l : list A) :
  (forall x, f x = true -> g x = true) ->
  (List.length (filter f l) <= List.length (filter g l))%nat.
Proof.
  intro H. induction l as [|a l IH]; simpl; [lia|].
  destruct (f a) eqn:E.
  - rewrite (H a E). simpl. lia.
  - destruct (g a); simpl; lia.
Qed.

Lemma Zsum_member {A} (f : A -> Z) (l : list A) (a : A) :
  (forall x, In x l -> (0 <= f x)%Z) -> In a l ->
  (f a <= Polars.Zsum (map f l))%Z.
Proof.
  induction l as [|b l IH]; intros Hpos Hin; [destruct Hin|].
  assert (Hrest : (0 <= Polars.Zsum (map f l))%Z).
  { clear IH Hin. induction l as [|c l IHl]; simpl; [lia|].
    assert (0 <= f c)%Z by (apply Hpos; right; left; reflexivity).
    assert (0 <= Polars.Zsum (map f l))%Z.
    { apply IHl. intros x [Hx|Hx]; apply Hpos; [left|right; right]; assumption. }
    lia. }
  simpl. destruct Hin as [->|Hin].
  - lia.
  - assert (0 <= f b)%Z by (apply Hpos; left; reflexivity).
    assert (f a <= Polars.Zsum (map f l))%Z.
    { apply IH; [|exact Hin]. intros x Hx. apply Hpos. right. exact Hx. }
    lia.
Qed.

Section EngineCounts.
Import CausalEngine.
Context {N : Numerics}.

Lemma treatment_stats_count : forall lf t,
    In t (treatment_stats lf) ->
    treated_count t
    = Polars.count
        (filter (fun o => task_stratum_eqb (task_stratum_of o)
                            (treated_problem t, treated_bins t)) lf).
Proof.
  intros lf t H. unfold treatment_stats in H.
  apply filter_In in H. destruct H as [H _].
  apply in_map_iff in H. destruct H as [[[p k] g] [Ht H]].
  apply (In_group_by _ task_stratum_eqb_eq) in H. destruct H as [Hg _].
  subst t g. cbn [treated_count treated_problem treated_bins treatment_agg
                    fst snd].
  unfold gains, Polars.count. rewrite length_map. reflexivity.
Qed.

Lemma baseline_stats_count : forall ms lf b,
    In b (baseline_stats ms lf) ->
    baseline_count b
    = Polars.count
        (filter (fun o => stratum_eqb (stratum_of (ev o)) (baseline_bins b)) lf).
Proof.
  intros ms lf b H. unfold baseline_stats in H.
  apply filter_In in H. destruct H as [H _].
  apply in_map_iff in H. destruct H as [[k g] [Hb H]].
  apply (In_group_by _ stratum_eqb_eq) in H. destruct H as [Hg _].
  subst b g. cbn [baseline_count baseline_bins baseline_agg fst snd].
  unfold gains, Polars.count. rewrite length_map. reflexivity.
Qed.
End EngineCounts.

(** Every row of [effect_df] rests on at least [min_samples] and at least
    10 treated events and on at least [min_samples] baseline events; the
    baseline of a stratum contains the treated events of each task, so it
    is never smaller than the treated sample; and the task total is at
    least the count of each of its rows. *)
Theorem effect_row_sample_counts :
  forall (N : Numerics) (min_samples : Z) (panel : list Event),
    Forall
      (fun r =>
         let t := CausalEngine.j_treated (CausalEngine.source r) in
         let b := CausalEngine.j_baseline (CausalEngine.source r) in
         (10 <= CausalEngine.treated_count t)%Z
         /\ (min_samples <= CausalEngine.treated_count t)%Z
         /\ (min_samples <= CausalEngine.baseline_count b)%Z
         /\ (CausalEngine.treated_count t <= CausalEngine.baseline_count b)%Z
         /\ (CausalEngine.treated_count t
             <= CausalEngine.total_treated_samples r)%Z)
      (fst (CausalEngine.compute_causal_effects min_samples panel)).
Proof.
  intros N ms panel. apply Forall_forall. intros r Hr.
  cbn [CausalEngine.compute_causal_effects fst] in Hr.
  unfold CausalEngine.effect_df_of_stats in Hr.
  set (lf := CausalEngine.outcomes panel) in *.
  set (rows := CausalEngine.effect_rows ms _ _) in *.
  rewrite with_weights_map in Hr. apply in_map_iff in Hr.
  destruct Hr as [j [<- Hj]]. cbv zeta.
  cbn [CausalEngine.source CausalEngine.total_treated_samples
         CausalEngine.record_of].
  pose proof (effect_rows_count ms lf j Hj) as H10.
  unfold CausalEngine.j_count in H10.
  assert (Hms : (ms <= CausalEngine.treated_count (CausalEngine.j_treated j))%Z
                /\ (ms <= CausalEngine.baseline_count
                            (CausalEngine.j_baseline j))%Z).
  { unfold rows, CausalEngine.effect_rows in Hj.
    apply filter_In in Hj. destruct Hj as [Hj _].
    apply filter_In in Hj. destruct Hj as [_ Hc].
    apply andb_true_iff in Hc. destruct Hc as [H1 H2].
    apply Z.leb_le in H1, H2. auto. }
  destruct Hms as [Hms1 Hms2].
  destruct (In_effect_rows ms _ _ j Hj) as [Ht [Hb [Hkey _]]].
  repeat split; try assumption.
  - rewrite (treatment_stats_count lf _ Ht),
      (baseline_stats_count ms lf _ Hb).
    unfold Polars.count. apply inj_le. apply length_filter_le.
    intros o Ho. unfold CausalEngine.task_stratum_eqb in Ho.
    apply andb_true_iff in Ho. destruct Ho as [_ Ho].
    cbn [snd CausalEngine.task_stratum_of] in Ho.
    rewrite <- Hkey. exact Ho.
  - unfold CausalEngine.task_total.
    apply (Zsum_member CausalEngine.j_count).
    + intros x Hx. apply filter_In in Hx. destruct Hx as [Hx _].
      pose proof (effect_rows_count ms lf x Hx). lia.
    + apply filter_In. split; [exact Hj|apply String.eqb_refl].
Qed.

(** ** One row per key *)

Lemma NoDup_map_filter {A B} (key : A -> B) (keep : A -> bool) :
  forall rows, NoDup (map key rows) -> NoDup (map key (filter keep rows)).
Proof.
  intro rows. induction rows as [|a rows IH]; simpl; intro H; [constructor|].
  inversion H as [|? ? Hnot Hnd]; subst.
  destruct (keep a); simpl; [|apply IH; exact Hnd].
  constructor; [|apply IH; exact Hnd].
  intro Hin. apply Hnot. apply in_map_iff in Hin.
  destruct Hin as [x [Hx Hin]]. apply filter_In in Hin.
  apply in_map_iff. exists x. split; [exact Hx|apply Hin].
Qed.

Lemma filter_at_most_one {A B} (key : A -> B) (f : A -> bool) (k : B)
  (l : list A) :
  NoDup (map key l) -> (forall a, f a = true -> key a = k) ->
  (List.length (filter f l) <= 1)%nat.
Proof.
  intros Hnd Hk. induction l as [|a l IH]; simpl; [lia|].
  inversion Hnd as [|? ? Hnot Hnd']; subst.
  destruct (f a) eqn:E; [|apply IH; exact Hnd'].
  simpl. assert (Hnone : filter f l = []).
  { destruct (filter f l) as [|b rest] eqn:Ef; [reflexivity|].
    exfalso. apply Hnot.
    assert (Hb : In b (filter f l)) by (rewrite Ef; left; reflexivity).
    apply filter_In in Hb. destruct Hb as [Hin Hfb].
    rewrite (Hk a E), <- (Hk b Hfb). apply in_map. exact Hin. }
  rewrite Hnone. simpl. lia.
Qed.

Section EngineKeys.
Import CausalEngine.
Context {N : Numerics}.

Lemma treatment_stats_keys : forall lf,
    NoDup (map treated_key (treatment_stats lf)).
Proof.
  intro lf. unfold treatment_stats. apply NoDup_map_filter.
  unfold Polars.group_by. rewrite !map_map.
  rewrite (map_ext _ (fun x : string * Stratum => x))
    by (intros [p k]; reflexivity).
  rewrite map_id. apply NoDup_distinct. exact task_stratum_eqb_eq.
Qed.

Lemma baseline_stats_keys : forall ms lf,
    NoDup (map baseline_bins (baseline_stats ms lf)).
Proof.
  intros ms lf. unfold baseline_stats. apply NoDup_map_filter.
  unfold Polars.group_by. rewrite !map_map.
  rewrite (map_ext _ (fun x : Stratum => x)) by (intro; reflexivity).
  rewrite map_id. apply NoDup_distinct. exact stratum_eqb_eq.
Qed.

Lemma join_on_bins_keys : forall ts bs,
    NoDup (map treated_key ts) -> NoDup (map baseline_bins bs) ->
    NoDup (map (fun j => treated_key (j_treated j)) (join_on_bins ts bs))
    /\ forall k,
        In k (map (fun j => treated_key (j_treated j)) (join_on_bins ts bs)) ->
        In k (map treated_key ts).
Proof.
  intros ts bs Hts Hbs. unfold join_on_bins.
  induction ts as [|t ts IH]; simpl.
  - split; [constructor|tauto].
  - inversion Hts as [|? ? Hnot Hnd]; subst.
    destruct (IH Hnd) as [IHnd IHin].
    set (ms := filter (fun b => stratum_join_eqb (treated_bins t)
                                  (baseline_bins b)) bs).
    assert (Hlen : (List.length ms <= 1)%nat).
    { apply (filter_at_most_one baseline_bins _ (treated_bins t)).
      - exact Hbs.
      - intros b Hb. symmetry. apply stratum_join_eqb_eq. exact Hb. }
    rewrite map_app, map_map. cbn [j_treated].
    destruct ms as [|b [|b' rest]]; simpl in Hlen; [| |lia].
    + simpl. split; [exact IHnd|]. intros k Hk. right. apply IHin. exact Hk.
    + simpl. split.
      * constructor; [|exact IHnd]. intro Hin. apply Hnot. apply IHin.
        exact Hin.
      * intros k [Hk|Hk]; [left; exact Hk|right; apply IHin; exact Hk].
Qed.
End EngineKeys.

(** The per-(task, stratum) table has one row per task and stratum, and
    the per-task table one row per task. *)
Theorem one_row_per_key :
  forall (N : Numerics) (min_samples : Z) (panel : list Event),
    NoDup (map (fun r => (CausalEngine.problem r, CausalEngine.bins r))
             (fst (CausalEngine.compute_causal_effects min_samples panel)))
    /\ NoDup (map CausalEngine.pe_problem
                (snd (CausalEngine.compute_causal_effects min_samples panel))).
Proof.
  intros N ms panel. split.
  - cbn [CausalEngine.compute_causal_effects fst].
    unfold CausalEngine.effect_df_of_stats.
    rewrite with_weights_map, map_map.
    rewrite (map_ext _ (fun j => treated_key (CausalEngine.j_treated j)))
      by (intro; reflexivity).
    unfold CausalEngine.effect_rows.
    apply NoDup_map_filter, NoDup_map_filter.
    apply join_on_bins_keys.
    + apply treatment_stats_keys.
    + apply baseline_stats_keys.
  - cbn [CausalEngine.compute_causal_effects snd].
    rewrite final_effects_problems. apply NoDup_distinct.
    exact String.eqb_eq.
Qed.

(** ** The two tables [run_pipeline] persists *)

Lemma run_pipeline_tables : forall (N : Numerics) panel,
    CausalEngine.run_pipeline panel
    = (CausalEngine.significant_effects
         (snd (CausalEngine.compute_causal_effects 50 panel)),
       filter
         (fun r =>
            existsb (String.eqb (CausalEngine.problem r))
              (map (fun s => CausalEngine.pe_problem (CausalEngine.effect s))
                 (CausalEngine.significant_effects
                    (snd (CausalEngine.compute_causal_effects 50 panel)))))
         (fst (CausalEngine.compute_causal_effects 50 panel))).
Proof. intros N panel. reflexivity. Qed.

(** The detailed table holds the rows of [effect_df] of the significant
    tasks and of no other task, and every significant task has a row in
    it. *)
Theorem detailed_table_covers_significant_tasks :
  forall (N : Numerics) (panel : list Event),
    let significant := fst (CausalEngine.run_pipeline panel) in
    let detailed := snd (CausalEngine.run_pipeline panel) in
    let sig_problem_ids :=
      map (fun s => CausalEngine.pe_problem (CausalEngine.effect s))
        significant in
    (forall r,
        In r detailed <->
        In r (fst (CausalEngine.compute_causal_effects 50 panel))
        /\ In (CausalEngine.problem r) sig_problem_ids)
    /\ (forall p, In p sig_problem_ids ->
                  exists r, In r detailed /\ CausalEngine.problem r = p).
Proof.
  intros N panel. rewrite run_pipeline_tables. cbn [fst snd]. cbv zeta.
  set (c := CausalEngine.compute_causal_effects 50 panel).
  set (ids := map (fun s => CausalEngine.pe_problem (CausalEngine.effect s))
                (CausalEngine.significant_effects (snd c))).
  assert (Hmem : forall r,
             In r (filter (fun r => existsb (String.eqb (CausalEngine.problem r))
                                      ids) (fst c))
             <-> In r (fst c) /\ In (CausalEngine.problem r) ids).
  { intro r. rewrite filter_In, existsb_exists. split.
    - intros [H [p [Hp Heq]]]. apply String.eqb_eq in Heq.
      rewrite Heq. auto.
    - intros [H Hp]. split; [exact H|].
      exists (CausalEngine.problem r). split; [exact Hp|apply String.eqb_refl]. }
  split; [exact Hmem|].
  intros p Hp. assert (Hp' := Hp). unfold ids in Hp'.
  apply in_map_iff in Hp'. destruct Hp' as [s [Hs Hin]].
  apply In_significant_effects in Hin. destruct Hin as [[pe [Hpe ->]] _].
  cbn [CausalEngine.effect CausalEngine.test_of] in Hs.
  unfold c in Hpe. cbn [CausalEngine.compute_causal_effects snd] in Hpe.
  apply In_final_effects in Hpe. destruct Hpe as [_ [r [Hr Hrp]]].
  exists r. split; [|congruence].
  apply Hmem. split; [exact Hr|]. rewrite Hrp, Hs. exact Hp.
Qed.

(** ** Histories of at most twenty submissions *)

Lemma length_filter_permutation {A} (f : A -> bool) (l l' : list A) :
  Permutation l l' -> List.length (filter f l) = List.length (filter f l').
Proof.
  induction 1 as [|x l l' _ IH|x y l|l l' l'' _ IH1 _ IH2]; simpl.
  - reflexivity.
  - destruct (f x); simpl; rewrite IH; reflexivity.
  - destruct (f x), (f y); reflexivity.
  - rewrite IH1. exact IH2.
Qed.

Lemma length_filter_cons_le {A} (f : A -> bool) (a : A) (l : list A) :
  (List.length (filter f l) <= List.length (filter f (a :: l)))%nat.
Proof. simpl. destruct (f a); simpl; lia. Qed.

Lemma shift_neg_all_null : forall n rows,
    (forall e, In e rows ->
               (List.length (filter (same_handle e) rows) <= n)%nat) ->
    Forall (fun row : Event * option Q => snd row = None)
      (shift_neg_over_handle n rows).
Proof.
  intros n rows. induction rows as [|e rest IH]; intro H;
    cbn [shift_neg_over_handle].
  - constructor.
  - constructor.
    + cbn [snd].
      assert (Hn : nth_error (filter (same_handle e) (e :: rest)) n = None).
      { apply nth_error_None. apply H. left. reflexivity. }
      rewrite Hn. reflexivity.
    + apply IH. intros e' He'.
      eapply Nat.le_trans; [apply (length_filter_cons_le _ e)|].
      apply H. right. exact He'.
Qed.

Lemma shift_pos_all_null : forall n rows seen,
    (forall e, In e rows ->
               (List.length (filter (same_handle e) (seen ++ rows)) <= n)%nat) ->
    Forall (fun row : Event * option Q => snd row = None)
      (shift_pos_over_handle_from seen n rows).
Proof.
  intros n rows. induction rows as [|e rest IH]; intros seen H;
    cbn [shift_pos_over_handle_from].
  - constructor.
  - constructor.
    + cbn [snd].
      assert (Hn : nth_error (filter (same_handle e) (e :: seen)) n = None).
      { apply nth_error_None.
        eapply Nat.le_trans; [|apply (H e); left; reflexivity].
        rewrite (length_filter_permutation _ (seen ++ e :: rest)
                   ((e :: seen) ++ rest)).
        - rewrite filter_app, length_app. lia.
        - symmetry. apply Permutation_middle. }
      rewrite Hn. reflexivity.
    + apply IH. intros e' He'.
      rewrite (length_filter_permutation _ ((e :: seen) ++ rest)
                 (seen ++ e :: rest)).
      * apply H. right. exact He'.
      * apply Permutation_middle.
Qed.

Lemma drop_nulls_all_null {A B} (f : A * option Q -> option B)
  (l : list (A * option Q)) :
  (forall a, f (a, None) = None) ->
  Forall (fun row => snd row = None) l ->
  Polars.drop_nulls (map f l) = [].
Proof.
  intros Hf H. induction H as [|[a o] l Ho _ IH]; simpl; [reflexivity|].
  simpl in Ho. subst o. rewrite Hf. exact IH.
Qed.

Lemma short_histories_sorted : forall panel,
    forallb (fun e => Nat.leb (List.length (filter (same_handle e) panel)) 20)
      panel = true ->
    forall e, In e (sort_by_handle_time panel) ->
              (List.length (filter (same_handle e) (sort_by_handle_time panel))
               <= 20)%nat.
Proof.
  intros panel H e He. unfold sort_by_handle_time in *.
  apply In_sort in He. rewrite forallb_forall in H.
  apply H in He. apply Nat.leb_le in He.
  rewrite <- (length_filter_permutation _ _ _
                (sort_permutation handle_time_le panel)).
  exact He.
Qed.

(** When no user has more than twenty submissions in the panel, no row
    has an outcome, forward or backward, and every table of the engine is
    empty. *)
Theorem short_histories_yield_empty_tables :
  forall (N : Numerics) (min_samples : Z) (panel : list Event),
    forallb (fun e => Nat.leb (List.length (filter (same_handle e) panel)) 20)
      panel = true ->
    CausalEngine.outcomes panel = []
    /\ Validation.placebos panel = []
    /\ CausalEngine.compute_causal_effects min_samples panel = ([], [])
    /\ CausalEngine.run_pipeline panel = ([], []).
Proof.
  intros N ms panel H.
  pose proof (short_histories_sorted panel H) as Hs.
  assert (Ho : CausalEngine.outcomes panel = []).
  { unfold CausalEngine.outcomes. apply drop_nulls_all_null.
    - reflexivity.
    - apply shift_neg_all_null. exact Hs. }
  assert (Hp : Validation.placebos panel = []).
  { unfold Validation.placebos. apply drop_nulls_all_null.
    - reflexivity.
    - apply shift_pos_all_null. exact Hs. }
  assert (Hc : forall ms', CausalEngine.compute_causal_effects ms' panel = ([], [])).
  { intro ms'. unfold CausalEngine.compute_causal_effects.
    rewrite Ho. reflexivity. }
  repeat split; try assumption; [apply Hc|].
  rewrite run_pipeline_tables, Hc. reflexivity.
Qed.

Lemma short_histories_witness :
  CausalEngine.outcomes Samples.panel_short = []
  /\ Validation.placebos Samples.panel_short = []
  /\ CausalEngine.compute_causal_effects (N := Approx.numerics) 50 Samples.panel_short
     = ([], [])
  /\ CausalEngine.run_pipeline (N := Approx.numerics) Samples.panel_short = ([], []).
Proof.
  apply (short_histories_yield_empty_tables Approx.numerics 50 Samples.panel_short).
  vm_compute. reflexivity.
Defined.

(* ================================================================== *)
(** * The loader *)
(* ================================================================== *)

Lemma has_column_In : forall columns c,
    DataLoader.has_column columns c = true <-> In c columns.
Proof.
  intros columns c. unfold DataLoader.has_column. rewrite existsb_exists.
  split.
  - intros [x [Hx Heq]]. apply String.eqb_eq in Heq. subst x. exact Hx.
  - intro H. exists c. split; [exact H|apply String.eqb_refl].
Qed.

Lemma missing_columns_spec : forall columns c,
    In c (DataLoader.missing_columns columns)
    <-> In c DataLoader.required_columns /\ ~ In c columns.
Proof.
  intros columns c. unfold DataLoader.missing_columns.
  rewrite filter_In, negb_true_iff.
  split; intros [H1 H2]; split; try assumption.
  - intro H'. apply has_column_In in H'. congruence.
  - destruct (DataLoader.has_column columns c) eqn:E; [|reflexivity].
    exfalso. apply H2, has_column_In, E.
Qed.

Lemma missing_columns_nil : forall columns,
    DataLoader.missing_columns columns = []
    <-> forall c, In c DataLoader.required_columns -> In c columns.
Proof.
  intro columns. split.
  - intros H c Hc.
    destruct (DataLoader.has_column columns c) eqn:E;
      [apply has_column_In; exact E|].
    assert (Hin : In c (DataLoader.missing_columns columns)).
    { apply missing_columns_spec. split; [exact Hc|].
      intro H'. apply has_column_In in H'. congruence. }
    rewrite H in Hin. destruct Hin.
  - intro H. destruct (DataLoader.missing_columns columns) as [|c l] eqn:E;
      [reflexivity|].
    assert (Hin : In c (DataLoader.missing_columns columns))
      by (rewrite E; left; reflexivity).
    apply missing_columns_spec in Hin. destruct Hin as [H1 H2].
    exfalso. apply H2, H, H1.
Qed.

(** The loader fails with [ValueError] exactly when one of the five
    required columns is absent, and then names exactly the absent ones.
    A frame with the five required columns and no [problem_rating] column
    passes that check and fails when the frame is collected; with all six
    columns the loader returns rows. *)
Theorem clean_and_prepare_schema_errors :
  forall (columns : list string) (rows : list DataLoader.Submission),
    (forall missing,
        DataLoader.clean_and_prepare columns rows
        = DataLoader.ValueError missing ->
        missing <> []
        /\ forall c, In c missing
                     <-> In c DataLoader.required_columns /\ ~ In c columns)
    /\ ((exists missing,
            DataLoader.clean_and_prepare columns rows
            = DataLoader.ValueError missing)
        <-> exists c, In c DataLoader.required_columns /\ ~ In c columns)
    /\ (DataLoader.clean_and_prepare columns rows
        = DataLoader.ColumnNotFound Schema.COL_PROBLEM_RATING
        <-> (forall c, In c DataLoader.required_columns -> In c columns)
            /\ ~ In Schema.COL_PROBLEM_RATING columns)
    /\ ((exists out, DataLoader.clean_and_prepare columns rows
                     = DataLoader.Ok out)
        <-> (forall c, In c DataLoader.required_columns -> In c columns)
            /\ In Schema.COL_PROBLEM_RATING columns).
Proof.
  intros columns rows. unfold DataLoader.clean_and_prepare.
  pose proof (missing_columns_spec columns) as Hspec.
  pose proof (missing_columns_nil columns) as Hnil.
  pose proof (has_column_In columns Schema.COL_PROBLEM_RATING) as Hpr.
  destruct (DataLoader.missing_columns columns) as [|m ms] eqn:Em.
  - assert (Hall := proj1 Hnil eq_refl).
    assert (Hnone : ~ exists c, In c DataLoader.required_columns
                                /\ ~ In c columns).
    { intros [c [Hc Hn]]. apply Hn, Hall, Hc. }
    destruct (DataLoader.has_column columns Schema.COL_PROBLEM_RATING) eqn:Ep.
    + assert (Hin : In Schema.COL_PROBLEM_RATING columns)
        by (apply Hpr; reflexivity).
      split; [intros missing H'; discriminate|].
      split; [split; [intros [missing H']; discriminate|intro H'; contradiction]|].
      split; [split; [discriminate|intros [_ Hn]; contradiction]|].
      split; [intros _; split; assumption|intros _; eexists; reflexivity].
    + assert (Hnin : ~ In Schema.COL_PROBLEM_RATING columns).
      { intro H'. apply Hpr in H'. discriminate. }
      split; [intros missing H'; discriminate|].
      split; [split; [intros [missing H']; discriminate|intro H'; contradiction]|].
      split; [split; [intros _; split; assumption|reflexivity]|].
      split; [intros [out H']; discriminate|intros [_ H']; contradiction].
  - assert (Hm : In m DataLoader.required_columns /\ ~ In m columns).
    { apply Hspec. left. reflexivity. }
    assert (Hnall : ~ forall c, In c DataLoader.required_columns -> In c columns).
    { intro Hall. apply (proj2 Hm), Hall, (proj1 Hm). }
    split.
    { intros missing H'. injection H' as Hmiss. subst missing.
      split; [intro Hnil'; discriminate Hnil'|exact Hspec]. }
    split; [split; [intros _; exists m; exact Hm|intros _; eexists; reflexivity]|].
    split; [split; [discriminate|intros [Hall _]; contradiction]|].
    split; [intros [out H']; discriminate|intros [Hall _]; contradiction].
Qed.

Lemma round0_nonneg_bounds : forall (q : Q) (lo hi : Z),
    inject_Z lo <= q -> q <= inject_Z hi -> (0 <= lo)%Z ->
    (lo <= Polars.round0 q <= hi)%Z.
Proof.
  intros q lo hi Hlo Hhi H0. unfold Polars.round0.
  assert (Hq : 0 <= q).
  { apply Qle_trans with (inject_Z lo); [|exact Hlo].
    apply inject_Z_nonneg. exact H0. }
  assert (Hb : Qle_bool 0 q = true) by (apply Qle_bool_iff; exact Hq).
  rewrite Hb. split.
  - rewrite <- (Qfloor_Z lo). apply Qfloor_resp_le. lra.
  - assert (Hlt : q + (1 # 2) < inject_Z (hi + 1)).
    { rewrite inject_Z_plus. change (inject_Z 1) with 1. lra. }
    pose proof (Qfloor_le (q + (1 # 2))) as Hfl.
    assert (inject_Z (Qfloor (q + (1 # 2))) < inject_Z (hi + 1)) by lra.
    rewrite <- Zlt_Qlt in H. lia.
Qed.

(** Every row the loader keeps has a rating between [MIN_RATING] and
    [MAX_RATING], so the rating bucket of an event with that rating lies
    between 8 and 40; the rows are kept in order, and the loader applied
    to its own output keeps every row. *)
Theorem cleaned_rows_ratings_and_buckets :
  forall (columns : list string) (rows out : list DataLoader.Submission),
    DataLoader.clean_and_prepare columns rows = DataLoader.Ok out ->
    Forall
      (fun s =>
         In s rows
         /\ exists r,
             DataLoader.rating_at_submission s = Some r
             /\ Config.MIN_RATING <= r /\ r <= Config.MAX_RATING
             /\ forall e : Event,
                 rating_at_submission e = r ->
                 (8 <= CausalEngine.bin_rating_of e <= 40)%Z)
      out
    /\ (forall s, In s rows -> DataLoader.rating_in_range s = true -> In s out)
    /\ DataLoader.clean_and_prepare columns out = DataLoader.Ok out.
Proof.
  intros columns rows out H. unfold DataLoader.clean_and_prepare in *.
  destruct (DataLoader.missing_columns columns); [|discriminate].
  destruct (DataLoader.has_column columns Schema.COL_PROBLEM_RATING);
    [|discriminate].
  injection H as <-. split; [|split].
  - apply Forall_forall. intros s Hs. apply filter_In in Hs.
    destruct Hs as [Hin Hr]. split; [exact Hin|].
    unfold DataLoader.rating_in_range in Hr.
    destruct (DataLoader.rating_at_submission s) as [r|]; [|discriminate].
    apply andb_true_iff in Hr. destruct Hr as [H1 H2].
    apply Qle_bool_iff in H1, H2. exists r.
    split; [reflexivity|]. split; [exact H1|]. split; [exact H2|].
    intros e He. unfold CausalEngine.bin_rating_of. rewrite He.
    unfold Config.MIN_RATING in H1. unfold Config.MAX_RATING in H2.
    apply round0_nonneg_bounds; [| |lia].
    + apply Qle_shift_div_l; [reflexivity|].
      change (inject_Z 8 * 100) with 800. exact H1.
    + apply Qle_shift_div_r; [reflexivity|].
      change (inject_Z 40 * 100) with 4000. exact H2.
  - intros s Hs Hr. apply filter_In. auto.
  - f_equal. induction rows as [|a l IH]; simpl; [reflexivity|].
    destruct (DataLoader.rating_in_range a) eqn:E; simpl.
    + rewrite E, IH. reflexivity.
    + exact IH.
Qed.

Lemma cleaned_rows_witness :
  DataLoader.clean_and_prepare Samples.six_columns Samples.raw_rows
  = DataLoader.Ok Samples.cleaned_rows
  /\ Forall
       (fun s =>
          In s Samples.raw_rows
          /\ exists r,
              DataLoader.rating_at_submission s = Some r
              /\ Config.MIN_RATING <= r /\ r <= Config.MAX_RATING
              /\ forall e : Event,
                  rating_at_submission e = r ->
                  (8 <= CausalEngine.bin_rating_of e <= 40)%Z)
       Samples.cleaned_rows
  /\ (forall s, In s Samples.raw_rows ->
                DataLoader.rating_in_range s = true ->
                In s Samples.cleaned_rows)
  /\ DataLoader.clean_and_prepare Samples.six_columns Samples.cleaned_rows
     = DataLoader.Ok Samples.cleaned_rows.
Proof.
  split; [vm_compute; reflexivity|].
  apply (cleaned_rows_ratings_and_buckets Samples.six_columns
           Samples.raw_rows Samples.cleaned_rows).
  vm_compute. reflexivity.
Defined.

(* ================================================================== *)
(** * The problem metadata *)
(* ================================================================== *)

Lemma clip_bounds : forall lo hi x,
    lo <= hi ->
    lo <= ProblemMeta.clip lo hi x /\ ProblemMeta.clip lo hi x <= hi.
Proof.
  intros lo hi x Hlh. unfold ProblemMeta.clip.
  destruct (Qle_bool x lo) eqn:E1.
  - split; [apply Qle_refl|exact Hlh].
  - destruct (Qle_bool hi x) eqn:E2.
    + split; [exact Hlh|apply Qle_refl].
    + split.
      * destruct (Qlt_le_dec lo x) as [H|H]; [apply Qlt_le_weak; exact H|].
        apply Qle_bool_iff in H. congruence.
      * destruct (Qlt_le_dec x hi) as [H|H]; [apply Qlt_le_weak; exact H|].
        apply Qle_bool_iff in H. congruence.
Qed.

Lemma mean_opt_none : forall l,
    ProblemMeta.mean_opt l = None <-> Polars.drop_nulls l = [].
Proof.
  intro l. unfold ProblemMeta.mean_opt.
  destruct (Polars.drop_nulls l); split; intro H;
    try reflexivity; discriminate.
Qed.

Lemma drop_nulls_ratings : forall g : list DataLoader.Submission,
    (forall s, In s g -> DataLoader.rating_in_range s = true) ->
    (Polars.drop_nulls (map DataLoader.rating_at_submission g) = []
     <-> g = []).
Proof.
  intros g H. destruct g as [|s g]; [simpl; tauto|].
  split; [|discriminate]. simpl.
  assert (Hs := H s (or_introl eq_refl)).
  unfold DataLoader.rating_in_range in Hs.
  destruct (DataLoader.rating_at_submission s); discriminate.
Qed.

Lemma count_zero {A} (l : list A) : Polars.count l = 0%Z <-> l = [].
Proof.
  unfold Polars.count. destruct l; simpl; split; intro H;
    try reflexivity; try discriminate; lia.
Qed.

(** On cleaned submissions the estimated difficulty of a problem is null
    exactly when the problem has no accepted submission, whether or not
    the dataset provides a rating for it, and otherwise lies between
    [MIN_RATING] and [MAX_RATING]. *)
Theorem estimated_difficulty_null_or_in_range :
  forall raw : list DataLoader.Submission,
    Forall
      (fun m =>
         (ProblemMeta.estimated_difficulty m = None
          <-> ProblemMeta.ok_count m = 0%Z)
         /\ forall d,
             ProblemMeta.estimated_difficulty m = Some d ->
             Config.MIN_RATING <= d /\ d <= Config.MAX_RATING)
      (ProblemMeta.compute_problem_metadata
         (filter DataLoader.rating_in_range raw)).
Proof.
  intro raw. apply Forall_forall. intros m Hm.
  unfold ProblemMeta.compute_problem_metadata in Hm.
  apply in_map_iff in Hm. destruct Hm as [[k g] [<- Hg]].
  apply (In_group_by _ String.eqb_eq) in Hg. destruct Hg as [Hg _].
  assert (Hok : forall s, In s (filter ProblemMeta.is_ok g) ->
                          DataLoader.rating_in_range s = true).
  { intros s Hs. apply filter_In in Hs. destruct Hs as [Hs _].
    subst g. apply filter_In in Hs. destruct Hs as [Hs _].
    apply filter_In in Hs. apply Hs. }
  unfold ProblemMeta.stats_of.
  cbn [ProblemMeta.estimated_difficulty ProblemMeta.ok_count snd fst].
  set (solver := ProblemMeta.mean_opt
                   (map DataLoader.rating_at_submission
                      (filter ProblemMeta.is_ok g))).
  assert (Hsolver : solver = None <-> filter ProblemMeta.is_ok g = []).
  { unfold solver. rewrite mean_opt_none. apply drop_nulls_ratings. exact Hok. }
  split.
  - rewrite count_zero, <- Hsolver.
    destruct (ProblemMeta.mean_opt (map DataLoader.problem_rating g));
      destruct solver; simpl; split; intro H; try reflexivity; discriminate.
  - intros d Hd.
    destruct (ProblemMeta.mean_opt (map DataLoader.problem_rating g));
      destruct solver; simpl in Hd; try discriminate;
      injection Hd as <-; apply clip_bounds; discriminate.
Qed.

Lemma filter_nil_iff {A} (f : A -> bool) (l : list A) :
  filter f l = [] <-> forall x, In x l -> f x = false.
Proof.
  induction l as [|a l IH]; simpl; [tauto|].
  destruct (f a) eqn:E.
  - split; [discriminate|]. intro H. rewrite (H a) in E by auto.
    discriminate.
  - rewrite IH. split.
    + intros H x [<-|Hx]; [exact E|apply H, Hx].
    + intros H x Hx. apply H. right. exact Hx.
Qed.

Lemma filter_implied_length {A} (f g : A -> bool) (l : list A) :
  (forall x, f x = true -> g x = true) ->
  (List.length (filter f l) <= List.length (filter g l))%nat.
Proof.
  intro H. induction l as [|a l IH]; simpl; [lia|].
  destruct (f a) eqn:E.
  - rewrite (H a E). simpl. lia.
  - destruct (g a); simpl; lia.
Qed.

(** Every problem of the input has exactly one metadata row.  Its
    [total_submissions] counts the submissions of the problem whose
    verdict is not null, and its [ok_count] the accepted ones among them.
    The acceptance rate is always a number in [0, 1]: the quotient of the
    two counts, and 0 for a problem none of whose verdicts is recorded,
    where the quotient 0/0 is the NaN that [fill_nan] replaces; such a
    problem is flagged as neither supported nor stable. *)
Theorem problem_metadata_rows :
  forall lf : list DataLoader.Submission,
    NoDup (map ProblemMeta.problem_id (ProblemMeta.compute_problem_metadata lf))
    /\ (forall p,
           In p (map ProblemMeta.problem_id
                   (ProblemMeta.compute_problem_metadata lf))
           <-> exists s, In s lf /\ DataLoader.id_of_submission_task s = p)
    /\ Forall
         (fun m =>
            let g :=
              filter
                (fun s => String.eqb (DataLoader.id_of_submission_task s)
                            (ProblemMeta.problem_id m))
                lf in
            ProblemMeta.total_submissions m
            = Polars.count (filter ProblemMeta.has_verdict g)
            /\ ProblemMeta.ok_count m
               = Polars.count (filter ProblemMeta.is_ok g)
            /\ (0 <= ProblemMeta.ok_count m
                <= ProblemMeta.total_submissions m)%Z
            /\ (ProblemMeta.total_submissions m = 0%Z
                <-> forall s, In s g -> DataLoader.verdict s = None)
            /\ (exists a,
                   ProblemMeta.acceptance_rate m = Fin a
                   /\ 0 <= a /\ a <= 1
                   /\ ((1 <= ProblemMeta.total_submissions m)%Z ->
                       a == inject_Z (ProblemMeta.ok_count m)
                            / inject_Z (ProblemMeta.total_submissions m))
                   /\ (ProblemMeta.total_submissions m = 0%Z -> a = 0)
                   /\ ProblemMeta.stable_acceptance m = Qle_bool (5 # 100) a)
            /\ (ProblemMeta.total_submissions m = 0%Z ->
                ProblemMeta.has_sufficient_support m = false
                /\ ProblemMeta.stable_acceptance m = false))
         (ProblemMeta.compute_problem_metadata lf).
Proof.
  intro lf.
  assert (Hids : map ProblemMeta.problem_id
                   (ProblemMeta.compute_problem_metadata lf)
                 = Polars.distinct String.eqb
                     (map DataLoader.id_of_submission_task lf)).
  { unfold ProblemMeta.compute_problem_metadata, Polars.group_by.
    rewrite !map_map. simpl. apply map_id. }
  split; [rewrite Hids; apply NoDup_distinct; exact String.eqb_eq|].
  split.
  - intro p. rewrite Hids, (In_distinct _ String.eqb_eq), in_map_iff.
    split; intros [s [H1 H2]]; exists s; auto.
  - apply Forall_forall. intros m Hm.
    unfold ProblemMeta.compute_problem_metadata in Hm.
    apply in_map_iff in Hm. destruct Hm as [[k g] [<- Hg]].
    apply (In_group_by _ String.eqb_eq) in Hg.
    destruct Hg as [Hg _]. cbv zeta.
    unfold ProblemMeta.stats_of.
    cbn [ProblemMeta.total_submissions ProblemMeta.ok_count
           ProblemMeta.acceptance_rate ProblemMeta.problem_id
           ProblemMeta.stable_acceptance ProblemMeta.has_sufficient_support
           snd fst].
    rewrite <- Hg.
    set (total := Polars.count (filter ProblemMeta.has_verdict g)).
    set (ok := Polars.count (filter ProblemMeta.is_ok g)).
    assert (Hle : (ok <= total)%Z).
    { unfold ok, total, Polars.count. apply inj_le.
      apply filter_implied_length. intros s Hs.
      unfold ProblemMeta.is_ok, ProblemMeta.has_verdict in *.
      destruct (DataLoader.verdict s); [reflexivity|discriminate]. }
    assert (H0 : (0 <= ok)%Z) by (unfold ok, Polars.count; lia).
    assert (Hnull : total = 0%Z
                    <-> forall s, In s g -> DataLoader.verdict s = None).
    { unfold total. rewrite count_zero, filter_nil_iff.
      split; intros H s Hs; specialize (H s Hs);
        unfold ProblemMeta.has_verdict in *;
        destruct (DataLoader.verdict s); congruence. }
    split; [reflexivity|]. split; [reflexivity|]. split; [lia|].
    split; [exact Hnull|].
    destruct (Z.eq_dec total 0) as [Hz|Hnz].
    + assert (Hok : ok = 0%Z) by lia.
      rewrite Hz, Hok. change (inject_Z 0) with 0.
      split.
      * exists 0. split; [reflexivity|]. split; [lra|]. split; [lra|].
        split; [intro H; lia|]. split; reflexivity.
      * intros _. split; reflexivity.
    + assert (Ht : (1 <= total)%Z) by (unfold total, Polars.count in *; lia).
      assert (HT : 0 < inject_Z total) by (apply inject_Z_pos; lia).
      assert (E : Qeq_bool (inject_Z total) 0 = false).
      { destruct (Qeq_bool (inject_Z total) 0) eqn:E; [|reflexivity].
        apply Qeq_bool_iff in E. lra. }
      split; [|intro H; contradiction].
      exists (inject_Z ok / inject_Z total).
      unfold fdiv. rewrite E. cbn [fill_nan ProblemMeta.fgeb].
      split; [reflexivity|]. split.
      { apply Qle_shift_div_l; [exact HT|]. rewrite Qmult_0_l.
        apply inject_Z_nonneg. exact H0. }
      split.
      { apply Qle_shift_div_r; [exact HT|]. rewrite Qmult_1_l.
        rewrite <- Zle_Qle. exact Hle. }
      split; [intros _; reflexivity|].
      split; [intro H; contradiction|reflexivity].
Qed.

(** A task whose two submissions have no recorded verdict, next to a
    task with one accepted submission out of two. *)
Example problem_metadata_unjudged_task :
  map (fun m => (ProblemMeta.problem_id m, ProblemMeta.total_submissions m,
                 ProblemMeta.ok_count m, ProblemMeta.acceptance_rate m,
                 ProblemMeta.stable_acceptance m))
    (ProblemMeta.compute_problem_metadata Samples.unjudged_rows)
  = [ ("N"%string, 0%Z, 0%Z, Fin 0, false);
      ("P"%string, 2%Z, 1%Z, Fin (1 / 2), true) ].
Proof. vm_compute. reflexivity. Qed.

(* ================================================================== *)
(** * The recommender *)
(* ================================================================== *)

Lemma StronglySorted_app {A} (R : A -> A -> Prop) (l1 l2 : list A) :
  StronglySorted R (l1 ++ l2) ->
  StronglySorted R l1
  /\ forall a b, In a l1 -> In b l2 -> R a b.
Proof.
  induction l1 as [|x l1 IH]; simpl; intro H.
  - split; [constructor|intros a b []].
  - inversion H as [|? ? Hs Hall]; subst.
    destruct (IH Hs) as [IH1 IH2]. rewrite Forall_forall in Hall. split.
    + constructor; [exact IH1|]. apply Forall_forall. intros y Hy.
      apply Hall. apply in_or_app. left. exact Hy.
    + intros a b [<-|Ha] Hb.
      * apply Hall. apply in_or_app. right. exact Hb.
      * apply IH2; assumption.
Qed.

Lemma StronglySorted_map {A B} (f : A -> B) (R : B -> B -> Prop)
  (l : list A) :
  StronglySorted (fun a b => R (f a) (f b)) l -> StronglySorted R (map f l).
Proof.
  induction 1 as [|a l Hs IH Hall]; simpl; constructor.
  - exact IH.
  - rewrite Forall_forall in *. intros y Hy. apply in_map_iff in Hy.
    destruct Hy as [x [<- Hx]]. apply Hall, Hx.
Qed.

Lemma In_firstn {A} (n : nat) (l : list A) (x : A) :
  In x (firstn n l) -> In x l.
Proof.
  intro H. rewrite <- (firstn_skipn n l). apply in_or_app. left. exact H.
Qed.

Lemma candidates_subset : forall rules r x,
    In x (Recommender.candidates rules r) -> In x rules.
Proof.
  intros rules r x. unfold Recommender.candidates.
  destruct (filter (Recommender.in_window r) rules) as [|a l] eqn:E.
  - auto.
  - intro H. rewrite <- E in H. apply filter_In in H. apply H.
Qed.

Lemma score_sorted : forall l,
    StronglySorted
      (fun a b => Recommender.final_score b <= Recommender.final_score a)
      (Polars.sort Recommender.score_desc l).
Proof.
  intro l. eapply StronglySorted_weaken.
  2:{ apply (sort_sorted Recommender.score_desc).
      - intros x y. unfold Recommender.score_desc. apply Qle_bool_total.
      - intros x y z. unfold Recommender.score_desc. intros H1 H2.
        apply Qle_bool_trans with (Recommender.final_score y); assumption. }
  intros a b H. apply Qle_bool_iff. exact H.
Qed.

(** [recommend] returns at most [top_k] recommendations, each built from
    a rule of the loaded table, in descending order of final score; the
    candidates left out score no higher than any candidate returned. *)
Theorem recommend_returns_top_k :
  forall (rules : list Recommender.Rule)
         (current_rating recent_acc recent_diff_avg : Q) (top_k : nat),
    let recs :=
      Recommender.recommend rules current_rating recent_acc recent_diff_avg
        top_k in
    (List.length recs <= top_k)%nat
    /\ StronglySorted
         (fun a b => Recommender.score b <= Recommender.score a) recs
    /\ exists top rest,
        recs = map Recommender.to_recommendation top
        /\ Permutation (Recommender.candidates rules current_rating)
             (top ++ rest)
        /\ (forall a b, In a top -> In b rest ->
                        Recommender.final_score b <= Recommender.final_score a)
        /\ (forall a, In a top -> In a rules).
Proof.
  intros rules r acc diff k recs. unfold recs, Recommender.recommend.
  set (cands := Recommender.candidates rules r).
  set (sorted := Polars.sort Recommender.score_desc cands).
  pose proof (score_sorted cands) as Hsorted. fold sorted in Hsorted.
  rewrite <- (firstn_skipn k sorted) in Hsorted.
  apply StronglySorted_app in Hsorted. destruct Hsorted as [Htop Hcross].
  split; [rewrite length_map; apply firstn_le_length|].
  split; [apply StronglySorted_map; exact Htop|].
  exists (firstn k sorted), (skipn k sorted).
  split; [reflexivity|]. split; [|split].
  - rewrite firstn_skipn. apply sort_permutation.
  - exact Hcross.
  - intros a Ha. apply (candidates_subset rules r).
    apply (proj1 (In_sort Recommender.score_desc cands a)).
    apply (In_firstn k). exact Ha.
Qed.

(** When some rule has its estimated difficulty within
    [current_rating - 200, current_rating + 400], every recommendation
    has; otherwise the recommendations are drawn from the whole table. *)
Theorem recommend_window_or_fallback :
  forall (rules : list Recommender.Rule)
         (current_rating recent_acc recent_diff_avg : Q) (top_k : nat),
    let recs :=
      Recommender.recommend rules current_rating recent_acc recent_diff_avg
        top_k in
    if existsb (Recommender.in_window current_rating) rules
    then Forall
           (fun x =>
              exists d,
                Recommender.rec_estimated_difficulty x = Some d
                /\ current_rating - 200 <= d /\ d <= current_rating + 400)
           recs
    else recs
         = map Recommender.to_recommendation
             (firstn top_k (Polars.sort Recommender.score_desc rules)).
Proof.
  intros rules r acc diff k recs. unfold recs, Recommender.recommend.
  destruct (existsb (Recommender.in_window r) rules) eqn:E.
  - apply existsb_exists in E. destruct E as [x [Hx Hw]].
    assert (Hc : Recommender.candidates rules r
                 = filter (Recommender.in_window r) rules).
    { unfold Recommender.candidates.
      destruct (filter (Recommender.in_window r) rules) as [|a l] eqn:Ef;
        [|reflexivity].
      assert (Hin : In x (filter (Recommender.in_window r) rules))
        by (apply filter_In; auto).
      rewrite Ef in Hin. destruct Hin. }
    rewrite Hc. apply Forall_forall. intros y Hy.
    apply in_map_iff in Hy. destruct Hy as [rule [<- Hrule]].
    apply In_firstn in Hrule.
    apply (proj1 (In_sort Recommender.score_desc _ _)) in Hrule.
    apply filter_In in Hrule. destruct Hrule as [_ Hrule].
    unfold Recommender.in_window in Hrule.
    cbn [Recommender.rec_estimated_difficulty Recommender.to_recommendation].
    destruct (Recommender.estimated_difficulty rule) as [d|]; [|discriminate].
    apply andb_true_iff in Hrule. destruct Hrule as [H1 H2].
    apply Qle_bool_iff in H1, H2. exists d. auto.
  - assert (Hc : Recommender.candidates rules r = rules).
    { unfold Recommender.candidates.
      destruct (filter (Recommender.in_window r) rules) as [|a l] eqn:Ef;
        [reflexivity|].
      assert (Hin : In a (filter (Recommender.in_window r) rules))
        by (rewrite Ef; left; reflexivity).
      apply filter_In in Hin. destruct Hin as [Hin Hw].
      assert (existsb (Recommender.in_window r) rules = true)
        by (apply existsb_exists; exists a; auto).
      congruence. }
    rewrite Hc. reflexivity.
Qed.

(* ================================================================== *)
(** * The significance test is two-tailed *)
(* ================================================================== *)

Lemma Qle_bool_opp_l : forall a, Qle_bool (- a) 0 = Qle_bool 0 a.
Proof.
  intros [n d]. unfold Qle_bool. simpl.
  rewrite !Z.mul_1_r. destruct n; reflexivity.
Qed.

Lemma Qle_bool_opp_r : forall a, Qle_bool 0 (- a) = Qle_bool a 0.
Proof.
  intros [n d]. unfold Qle_bool. simpl.
  rewrite !Z.mul_1_r. destruct n; reflexivity.
Qed.

Lemma fdiv_opp : forall a s,
    fdiv (Fin (- a)) s = fopp (fdiv (Fin a) s).
Proof.
  intros a s. destruct s as [b| | |]; try reflexivity.
  unfold fdiv. destruct (Qeq_bool b 0).
  - unfold Qsign_pos, Qsign_neg.
    rewrite Qle_bool_opp_l, Qle_bool_opp_r.
    destruct (Qle_bool 0 a) eqn:E1, (Qle_bool a 0) eqn:E2; try reflexivity.
    exfalso. simpl in *.
    assert (~ 0 <= a) by (intro H; apply Qle_bool_iff in H; congruence).
    assert (~ a <= 0) by (intro H'; apply Qle_bool_iff in H'; congruence).
    destruct (Qlt_le_dec 0 a) as [Hl|Hl]; [apply H, Qlt_le_weak, Hl|auto].
  - simpl. f_equal. destruct a as [n d], (/ b) as [m e].
    unfold Qdiv, Qmult, Qopp. simpl. f_equal. lia.
Qed.

Lemma fabs_fopp : forall x, fabs (fopp x) = fabs x.
Proof.
  intros [[n d]| | |]; try reflexivity.
  simpl. unfold Qabs, Qopp. simpl. rewrite Z.abs_opp. reflexivity.
Qed.

(** A task and its mirror image, with the opposite effect and the same
    variance, get opposite z-scores, the same p-value and the same verdict
    of the significance filter: a significantly negative effect is
    retained like a positive one. *)
Theorem significance_ignores_the_sign_of_the_effect :
  forall (N : Numerics) (pe pe' : CausalEngine.ProblemEffect),
    CausalEngine.att_variance pe' = CausalEngine.att_variance pe ->
    CausalEngine.att_score pe' = - CausalEngine.att_score pe ->
    CausalEngine.z_score (CausalEngine.test_of pe')
    = fopp (CausalEngine.z_score (CausalEngine.test_of pe))
    /\ CausalEngine.p_value (CausalEngine.test_of pe')
       = CausalEngine.p_value (CausalEngine.test_of pe)
    /\ CausalEngine.is_significant (CausalEngine.test_of pe')
       = CausalEngine.is_significant (CausalEngine.test_of pe).
Proof.
  intros N pe pe' Hv Ha.
  assert (Hz : CausalEngine.z_score (CausalEngine.test_of pe')
               = fopp (CausalEngine.z_score (CausalEngine.test_of pe))).
  { unfold CausalEngine.test_of. cbn [CausalEngine.z_score].
    rewrite Hv, Ha. apply fdiv_opp. }
  assert (Hp : CausalEngine.p_value (CausalEngine.test_of pe')
               = CausalEngine.p_value (CausalEngine.test_of pe)).
  { unfold CausalEngine.test_of in *. cbn [CausalEngine.p_value].
    cbn [CausalEngine.z_score] in Hz. rewrite Hz, fabs_fopp. reflexivity. }
  split; [exact Hz|]. split; [exact Hp|].
  unfold CausalEngine.is_significant. rewrite Hp. reflexivity.
Qed.

Lemma significance_sign_witness :
  (CausalEngine.z_score
     (CausalEngine.test_of (N := Approx.numerics) (Samples.effect_of (-10)))
   = fopp (CausalEngine.z_score
             (CausalEngine.test_of (N := Approx.numerics)
                (Samples.effect_of 10)))
   /\ CausalEngine.p_value
        (CausalEngine.test_of (N := Approx.numerics) (Samples.effect_of (-10)))
      = CausalEngine.p_value
          (CausalEngine.test_of (N := Approx.numerics) (Samples.effect_of 10))
   /\ CausalEngine.is_significant
        (CausalEngine.test_of (N := Approx.numerics) (Samples.effect_of (-10)))
      = CausalEngine.is_significant
          (CausalEngine.test_of (N := Approx.numerics)
             (Samples.effect_of 10)))
  /\ CausalEngine.is_significant
       (CausalEngine.test_of (N := Approx.numerics) (Samples.effect_of (-10)))
     = true.
Proof.
  split.
  - apply (significance_ignores_the_sign_of_the_effect Approx.numerics
             (Samples.effect_of 10) (Samples.effect_of (-10)));
      reflexivity.
  - vm_compute. reflexivity.
Defined.

(* ================================================================== *)
(** * The forward and the backward outcome *)
(* ================================================================== *)

Lemma skipn_nth_error {A} (n : nat) (l : list A) :
  skipn n l
  = match nth_error l n with
    | Some y => y :: skipn (S n) l
    | None => []
    end.
Proof.
  revert l. induction n as [|n IH]; intros [|a l]; try reflexivity.
  simpl. rewrite IH. destruct (nth_error l n); reflexivity.
Qed.

Lemma differences_nil_r : forall xs, Gains.differences xs [] = [].
Proof. intros [|x xs]; reflexivity. Qed.

Lemma gains_over_cons : forall n x rs,
    Gains.gains_over n (x :: rs)
    = match nth_error (x :: rs) n with
      | Some y => (y - x) :: Gains.gains_over n rs
      | None => Gains.gains_over n rs
      end.
Proof.
  intros n x rs. unfold Gains.gains_over.
  rewrite (skipn_nth_error n (x :: rs)).
  destruct (nth_error (x :: rs) n) as [y|] eqn:E.
  - reflexivity.
  - apply nth_error_None in E. simpl in E.
    rewrite (skipn_all2 rs) by lia.
    rewrite !differences_nil_r. reflexivity.
Qed.

Lemma same_handle_of_user : forall h e,
    Gains.of_user h e = true -> forall l, filter (same_handle e) l = filter (Gains.of_user h) l.
Proof.
  intros h e He l. apply filter_ext. intro e'.
  unfold same_handle, Gains.of_user in *. apply String.eqb_eq in He.
  rewrite <- He. reflexivity.
Qed.

Lemma forward_gains_of_user : forall h n rows,
    map CausalEngine.rating_gain_20
      (filter (fun o => Gains.of_user h (CausalEngine.ev o))
         (Polars.drop_nulls
            (map CausalEngine.outcome_of (shift_neg_over_handle n rows))))
    = Gains.gains_over n (Gains.ratings_of h rows).
Proof.
  intros h n rows. induction rows as [|e rest IH]; [reflexivity|].
  cbn [shift_neg_over_handle map]. unfold CausalEngine.outcome_of at 1.
  cbn [fst snd]. unfold Gains.ratings_of in *.
  destruct (Gains.of_user h e) eqn:Eu.
  - rewrite (same_handle_of_user h e Eu).
    cbn [filter]. rewrite Eu. cbn [map]. rewrite gains_over_cons.
    change (rating_at_submission e
            :: map rating_at_submission (filter (Gains.of_user h) rest))
      with (map rating_at_submission (e :: filter (Gains.of_user h) rest)).
    rewrite nth_error_map.
    destruct (nth_error (e :: filter (Gains.of_user h) rest) n) as [e'|];
      cbn [option_map Polars.drop_nulls filter CausalEngine.ev map
             CausalEngine.rating_gain_20].
    + rewrite Eu. cbn [map CausalEngine.rating_gain_20]. rewrite IH.
      reflexivity.
    + exact IH.
  - destruct (option_map rating_at_submission
                (nth_error (filter (same_handle e) (e :: rest)) n));
      cbn [Polars.drop_nulls filter CausalEngine.ev]; rewrite Eu; exact IH.
Qed.

Lemma backward_gains_of_user : forall h n rows seen,
    map Validation.placebo_gain_20
      (filter (fun o => Gains.of_user h (Validation.ev o))
         (Polars.drop_nulls
            (map Validation.placebo_of
               (shift_pos_over_handle_from seen n rows))))
    = Gains.gains_back n (Gains.ratings_of h seen) (Gains.ratings_of h rows).
Proof.
  intros h n rows. induction rows as [|e rest IH]; intro seen; [reflexivity|].
  cbn [shift_pos_over_handle_from map]. unfold Validation.placebo_of at 1.
  cbn [fst snd]. unfold Gains.ratings_of in *.
  destruct (Gains.of_user h e) eqn:Eu.
  - rewrite (same_handle_of_user h e Eu).
    cbn [filter]. rewrite Eu. cbn [map Gains.gains_back].
    change (rating_at_submission e
            :: map rating_at_submission (filter (Gains.of_user h) seen))
      with (map rating_at_submission (e :: filter (Gains.of_user h) seen)).
    rewrite nth_error_map.
    specialize (IH (e :: seen)). cbn [filter] in IH. rewrite Eu in IH.
    destruct (nth_error (e :: filter (Gains.of_user h) seen) n) as [e'|];
      cbn [option_map Polars.drop_nulls filter Validation.ev map
             Validation.placebo_gain_20].
    + rewrite Eu. cbn [map Validation.placebo_gain_20]. rewrite IH.
      reflexivity.
    + exact IH.
  - specialize (IH (e :: seen)). cbn [filter] in IH. rewrite Eu in IH.
    destruct (option_map rating_at_submission
                (nth_error (filter (same_handle e) (e :: seen)) n));
      cbn [Polars.drop_nulls filter Validation.ev]; rewrite Eu; exact IH.
Qed.

Lemma gains_back_differences : forall n l p,
    Gains.gains_back n (rev p) l
    = Gains.differences
        (skipn (Nat.max n (List.length p) - n) (p ++ l))
        (skipn (Nat.max n (List.length p)) (p ++ l)).
Proof.
  intros n l. induction l as [|x rest IH]; intro p.
  - rewrite app_nil_r. rewrite (skipn_all2 (n := Nat.max n (List.length p)))
      by lia.
    rewrite differences_nil_r. reflexivity.
  - cbn [Gains.gains_back].
    change (x :: rev p) with (rev [x] ++ rev p). rewrite <- rev_app_distr.
    specialize (IH (p ++ [x])). rewrite <- app_assoc in IH.
    cbn [app] in IH. rewrite length_app in IH. cbn [List.length] in IH.
    rewrite IH. clear IH.
    rewrite nth_error_rev, length_app. cbn [List.length].
    destruct (Nat.ltb n (List.length p + 1)) eqn:E.
    + apply Nat.ltb_lt in E.
      replace (Nat.max n (List.length p)) with (List.length p) by lia.
      replace (Nat.max n (List.length p + 1)) with (S (List.length p)) by lia.
      replace (List.length p + 1 - S n)%nat with (List.length p - n)%nat
        by lia.
      replace (S (List.length p) - n)%nat with (S (List.length p - n))
        by lia.
      assert (Hy : nth_error (p ++ [x]) (List.length p - n)
                   = nth_error (p ++ x :: rest) (List.length p - n)).
      { change (x :: rest) with ([x] ++ rest). rewrite app_assoc.
        symmetry. apply nth_error_app1. rewrite length_app. simpl. lia. }
      assert (Hx : nth_error (p ++ x :: rest) (List.length p) = Some x).
      { rewrite nth_error_app2 by lia. rewrite Nat.sub_diag. reflexivity. }
      rewrite Hy.
      rewrite (skipn_nth_error (List.length p - n) (p ++ x :: rest)).
      rewrite (skipn_nth_error (List.length p) (p ++ x :: rest)), Hx.
      destruct (nth_error (p ++ x :: rest) (List.length p - n)) as [y|] eqn:Ey.
      * reflexivity.
      * apply nth_error_None in Ey. rewrite length_app in Ey. simpl in Ey. lia.
    + apply Nat.ltb_ge in E.
      replace (Nat.max n (List.length p)) with n by lia.
      replace (Nat.max n (List.length p + 1)) with n by lia.
      reflexivity.
Qed.

Lemma gains_back_gains_over : forall n l,
    Gains.gains_back n [] l = Gains.gains_over n l.
Proof.
  intros n l. change (@nil Q) with (rev (@nil Q)) at 1.
  rewrite (gains_back_differences n l []).
  cbn [List.length app]. rewrite Nat.max_0_r, Nat.sub_diag. reflexivity.
Qed.

(** The placebo test of [validation.py] measures, user by user, the same
    column of rating gains as the engine: the gain over twenty submissions
    that the engine attaches to a submission is the one the placebo test
    attaches to the submission twenty places later, so both frames hold, for
    every user, the gains [r(i+20) - r(i)] of that user's history in the
    order of the sorted frame. *)
Theorem placebo_gains_mirror_forward_gains : forall (h : string) panel,
    map Validation.placebo_gain_20
      (filter (fun o => Gains.of_user h (Validation.ev o))
         (Validation.placebos panel))
    = map CausalEngine.rating_gain_20
        (filter (fun o => Gains.of_user h (CausalEngine.ev o))
           (CausalEngine.outcomes panel))
    /\ map CausalEngine.rating_gain_20
         (filter (fun o => Gains.of_user h (CausalEngine.ev o))
            (CausalEngine.outcomes panel))
       = Gains.gains_over 20
           (Gains.ratings_of h (sort_by_handle_time panel)).
Proof.
  intros h panel. unfold Validation.placebos, CausalEngine.outcomes,
    shift_pos_over_handle.
  rewrite forward_gains_of_user, backward_gains_of_user.
  split; [|reflexivity]. apply gains_back_gains_over.
Qed.
